(** * Trade query service (API/Scripts/main.py)

    A shallow embedding of the two endpoints of the service, [get_trades]
    (GET /trades) and [get_trade] (GET /trades/{trade_id}), and of the Python
    operations they are written with: [str.lower], [str.strip], list
    comprehensions, [sorted], list slicing and [datetime] comparison.

    Conventions.
    - A Python [str] is a [string]; a character is a code point below 256,
      on which [lower_char] and [isspace] agree with Python's tables.
    - A Python [int] is a [Z]; a Python [float] is a binary64 [float].
    - [Optional[T]] is [option T]; [None] is [None].
    - A Python expression that may raise is a [result]. *)

From Stdlib Require Import ZArith List String Ascii Bool Lia.
From Stdlib Require Import Sorting.Sorted Sorting.Permutation.
From Stdlib Require Import Floats.PrimFloat.
Import ListNotations.

Local Open Scope string_scope.
Local Open Scope Z_scope.

(* ================================================================== *)
(** * Python strings *)

Module Str.

(** [str.lower()] on one character: the ASCII capitals and the Latin-1
    capitals (all of 0xC0..0xDE but the multiplication sign 0xD7) move
    up by 32; every other character below 256 is its own lower case. *)
Definition lower_char (c : ascii) : ascii :=
  let n := N_of_ascii c in
  if ((65 <=? n) && (n <=? 90)
      || (192 <=? n) && (n <=? 222) && negb (n =? 215))%N
  then ascii_of_N (n + 32)
  else c.

Fixpoint lower (s : string) : string :=
  match s with
  | EmptyString => EmptyString
  | String c s' => String (lower_char c) (lower s')
  end.

(** The characters [str.strip()] removes: TAB..CR, FS..US, space, NEL
    and the no-break space. *)
Definition isspace (c : ascii) : bool :=
  let n := N_of_ascii c in
  ((9 <=? n) && (n <=? 13) || (28 <=? n) && (n <=? 32)
   || (n =? 133) || (n =? 160))%N.

Fixpoint lstrip (s : string) : string :=
  match s with
  | EmptyString => EmptyString
  | String c s' => if isspace c then lstrip s' else s
  end.

Fixpoint rstrip (s : string) : string :=
  match s with
  | EmptyString => EmptyString
  | String c s' =>
      match rstrip s' with
      | EmptyString => if isspace c then EmptyString else String c EmptyString
      | r => String c r
      end
  end.

Definition strip (s : string) : string := rstrip (lstrip s).

(** Truth value of a [str]: only the empty string is false. *)
Definition truthy (s : string) : bool := negb (String.eqb s "").

End Str.

(* ================================================================== *)
(** * Exceptions *)

Inductive exn : Type :=
| TypeError.   (* can't compare offset-naive and offset-aware datetimes *)

Inductive result (A : Type) : Type :=
| Ok (a : A)
| Raise (e : exn).

Arguments Ok {A} a.
Arguments Raise {A} e.

Definition bind {A B} (m : result A) (k : A -> result B) : result B :=
  match m with
  | Ok a => k a
  | Raise e => Raise e
  end.

Definition fmap {A B} (f : A -> B) (m : result A) : result B :=
  bind m (fun a => Ok (f a)).

Declare Scope result_scope.
Delimit Scope result_scope with result.
Notation "x <- m ;; k" := (bind m (fun x => k))
  (at level 61, m at next level, right associativity) : result_scope.
Local Open Scope result_scope.

(* ================================================================== *)
(** * datetime *)

(** A [dt.datetime] is naive (no tzinfo) or aware (tzinfo with a UTC
    offset).  [wall] counts the microseconds of the wall-clock fields
    from 0001-01-01T00:00:00; [utcoffset] is in microseconds. *)
Inductive datetime : Type :=
| Naive (wall : Z)
| Aware (wall : Z) (utcoffset : Z).

(** [a <= b] on datetimes: field order between naive values, order of
    the UTC instants between aware values, TypeError across the two. *)
Definition datetime_le (a b : datetime) : result bool :=
  match a, b with
  | Naive x, Naive y => Ok (x <=? y)
  | Aware x ox, Aware y oy => Ok (x - ox <=? y - oy)
  | _, _ => Raise TypeError
  end.

(** [a >= b], with the same three cases. *)
Definition datetime_ge (a b : datetime) : result bool :=
  match a, b with
  | Naive x, Naive y => Ok (x >=? y)
  | Aware x ox, Aware y oy => Ok (x - ox >=? y - oy)
  | _, _ => Raise TypeError
  end.

(* ================================================================== *)
(** * Data model *)

Record TradeDetails : Type := mkTradeDetails {
  buySellIndicator : string;
  price : float;
  quantity : Z
}.

(** Every [Trade] of the store is built by [Trade()] with the default
    factories; [trade_date_time] comes from [dt.datetime.now], a naive
    datetime, and is kept as its wall-clock count. *)
Record Trade : Type := mkTrade {
  asset_class : string;
  counterparty : string;
  instrument_id : string;
  instrument_name : string;
  trade_date_time : Z;
  trade_details : TradeDetails;
  trade_id : string;
  trader : string
}.

(* ================================================================== *)
(** * Python list operations *)

(** [[x for x in l if cond(x)]]: the condition is evaluated on each
    element in order and the first exception ends the comprehension. *)
Fixpoint comprehension {A} (cond : A -> result bool) (l : list A)
  : result (list A) :=
  match l with
  | [] => Ok []
  | x :: l' =>
      b <- cond x ;;
      r <- comprehension cond l' ;;
      Ok (if b then x :: r else r)
  end.

(** The [<] of a sort key, as [sorted] uses it. *)
Class PyLt (K : Type) : Type := py_lt : K -> K -> bool.

#[export] Instance str_lt : PyLt string := String.ltb.
#[export] Instance naive_lt : PyLt Z := Z.ltb.

Section Sorted.
Context {A K : Type} `{PyLt K}.
Variable key : A -> K.

(** [x] goes in front of the first element whose key is not below its
    own, so it stays ahead of the elements of equal key behind it. *)
Fixpoint insert (x : A) (l : list A) : list A :=
  match l with
  | [] => [x]
  | y :: l' =>
      if py_lt (key y) (key x) then y :: insert x l' else x :: y :: l'
  end.

(** [sorted(l, key=key)]: a new list, ascending by key, stable. *)
Fixpoint sorted (l : list A) : list A :=
  match l with
  | [] => []
  | x :: l' => insert x (sorted l')
  end.
End Sorted.

(** The [<] of a key type is a strict total order. *)
Class PyLtTotal (K : Type) `{PyLt K} : Prop := {
  py_lt_irrefl : forall a, py_lt a a = false;
  py_lt_trans : forall a b c,
    py_lt a b = true -> py_lt b c = true -> py_lt a c = true;
  py_lt_connex : forall a b,
    py_lt a b = false -> py_lt b a = false -> a = b
}.

(** [a] may stand before [b]: the key of [b] is not below that of [a]. *)
Definition key_le {A K} `{PyLt K} (key : A -> K) (a b : A) : Prop :=
  py_lt (key b) (key a) = false.

(** [a] has the key of [x]: neither key is below the other. *)
Definition same_key_as {A K} `{PyLt K} (key : A -> K) (x a : A) : bool :=
  negb (py_lt (key x) (key a)) && negb (py_lt (key a) (key x)).

(** [l[i:j]] for integers [i], [j]: a negative index counts from the
    end, both indices are clamped into [0, len(l)], and the slice is
    empty when the lower end is not below the upper one. *)
Definition clamp (n k : Z) : Z :=
  if k <? 0 then Z.max (k + n) 0 else Z.min k n.

Definition slice {A} (l : list A) (i j : Z) : list A :=
  let n := Z.of_nat (List.length l) in
  let lo := clamp n i in
  let hi := clamp n j in
  firstn (Z.to_nat (hi - lo)) (skipn (Z.to_nat lo) l).

(* ================================================================== *)
(** * GET /trades *)

(** The local variables of [get_trades] when it reaches its [return]. *)
Record locals : Type := mkLocals {
  filtered_trades : list Trade;
  total_trades : Z;
  start_index : Z;
  end_index : Z;
  paginated_trades : list Trade
}.

Section GetTrades.
(** The module-level list [trades] and the nine query parameters. *)
Variable trades : list Trade.
Variable assetClass : option string.
Variable end_ : option datetime.
Variable maxPrice minPrice : option float.
Variable start : option datetime.
Variable tradeType : option string.
Variable page perPage : Z.
Variable sort : option string.

(** [if assetClass: ...] *)
Definition filter_assetClass (l : list Trade) : result (list Trade) :=
  match assetClass with
  | Some a =>
      if Str.truthy a
      then comprehension
             (fun trade =>
                Ok (String.eqb (Str.lower (asset_class trade)) (Str.lower a)))
             l
      else Ok l
  | None => Ok l
  end.

(** [if end: ...]; a datetime is never false. *)
Definition filter_end (l : list Trade) : result (list Trade) :=
  match end_ with
  | Some e =>
      comprehension
        (fun trade => datetime_le (Naive (trade_date_time trade)) e) l
  | None => Ok l
  end.

(** [if maxPrice is not None: ...] *)
Definition filter_maxPrice (l : list Trade) : result (list Trade) :=
  match maxPrice with
  | Some m =>
      comprehension
        (fun trade => Ok (PrimFloat.leb (price (trade_details trade)) m)) l
  | None => Ok l
  end.

(** [if minPrice is not None: ...]; [price >= m] on floats is
    [m <= price]. *)
Definition filter_minPrice (l : list Trade) : result (list Trade) :=
  match minPrice with
  | Some m =>
      comprehension
        (fun trade => Ok (PrimFloat.leb m (price (trade_details trade)))) l
  | None => Ok l
  end.

(** [if start: ...]; a datetime is never false. *)
Definition filter_start (l : list Trade) : result (list Trade) :=
  match start with
  | Some s =>
      comprehension
        (fun trade => datetime_ge (Naive (trade_date_time trade)) s) l
  | None => Ok l
  end.

(** [if tradeType: ...] *)
Definition filter_tradeType (l : list Trade) : result (list Trade) :=
  match tradeType with
  | Some ty =>
      if Str.truthy ty
      then comprehension
             (fun trade =>
                Ok (String.eqb
                      (Str.lower (buySellIndicator (trade_details trade)))
                      (Str.lower ty)))
             l
      else Ok l
  | None => Ok l
  end.

(** Lines 50-68: the six filters, in the order of the source. *)
Definition filter_stage : result (list Trade) :=
  l <- filter_assetClass trades ;;
  l <- filter_end l ;;
  l <- filter_maxPrice l ;;
  l <- filter_minPrice l ;;
  l <- filter_start l ;;
  filter_tradeType l.

(** Lines 71-86: the [if]/[elif] chain on [sort.strip().lower()]. *)
Definition sort_stage (l : list Trade) : list Trade :=
  match sort with
  | Some s =>
      if Str.truthy s then
        let field_name := Str.lower (Str.strip s) in
        if String.eqb field_name "assetclass"
        then sorted asset_class l
        else if String.eqb field_name "counterparty"
        then sorted counterparty l
        else if String.eqb field_name "instrumentid"
        then sorted instrument_id l
        else if String.eqb field_name "instrumentname"
        then sorted instrument_name l
        else if String.eqb field_name "tradedatetime"
        then sorted trade_date_time l
        else if String.eqb field_name "tradeid"
        then sorted trade_id l
        else if String.eqb field_name "trader"
        then sorted trader l
        else l
      else l
  | None => l
  end.

(** Lines 89-92. *)
Definition paginate (l : list Trade) : locals :=
  let total_trades := Z.of_nat (List.length l) in
  let start_index := (page - 1) * perPage in
  let end_index := start_index + perPage in
  let paginated_trades := slice l start_index end_index in
  mkLocals l total_trades start_index end_index paginated_trades.

(** The body of [get_trades] up to its [return]. *)
Definition get_trades_body : result locals :=
  l <- filter_stage ;;
  Ok (paginate (sort_stage l)).

(** [return paginated_trades]: the response is the page and nothing
    else. *)
Definition get_trades : result (list Trade) :=
  fmap paginated_trades get_trades_body.

End GetTrades.

(* ================================================================== *)
(** * GET /trades/{trade_id} *)

(** What [get_trade] returns: a [Trade] of the store, or a [dict]. *)
Inductive value : Type :=
| VTrade (t : Trade)
| VDict (d : list (string * string)).

Fixpoint get_trade (trades : list Trade) (trade_id_ : string) : value :=
  match trades with
  | [] => VDict [("error", "Trade not found")]
  | trade :: rest =>
      if String.eqb (trade_id trade) trade_id_
      then VTrade trade
      else get_trade rest trade_id_
  end.

(* ================================================================== *)
(** * The store as a shared object *)

(** [trades] is one list object, and [filtered_trades = trades] makes
    the local variable a second name of it.  Here the list objects live
    in a heap and the variables hold references, so that an operation
    that changed its argument in place would change the store. *)
Module Refs.

Definition ref : Type := nat.

(** The list objects, in the order of their allocation. *)
Definition heap : Type := list (list Trade).

Definition deref (h : heap) (r : ref) : list Trade := nth r h [].

(** A computation on the heap that returns or raises. *)
Definition comp (A : Type) : Type := heap -> result A * heap.

Definition ret {A} (a : A) : comp A := fun h => (Ok a, h).

Definition bindc {A B} (m : comp A) (k : A -> comp B) : comp B :=
  fun h =>
    match m h with
    | (Ok a, h') => k a h'
    | (Raise e, h') => (Raise e, h')
    end.

Declare Scope comp_scope.
Delimit Scope comp_scope with comp.
Notation "x <~ m ;; k" := (bindc m (fun x => k))
  (at level 61, m at next level, right associativity) : comp_scope.
Local Open Scope comp_scope.

Definition read (r : ref) : comp (list Trade) :=
  fun h => (Ok (deref h r), h).

(** A new list object; nothing is allocated when building it raised. *)
Definition new_list (l : result (list Trade)) : comp ref :=
  fun h =>
    match l with
    | Ok l => (Ok (List.length h), (h ++ [l])%list)
    | Raise e => (Raise e, h)
    end.

(** A comprehension, [sorted] and a slice read their argument and
    build a new list. *)
Definition list_comp (cond : Trade -> result bool) (r : ref) : comp ref :=
  l <~ read r ;; new_list (comprehension cond l).

Definition sorted_ref {K} `{PyLt K} (key : Trade -> K) (r : ref) : comp ref :=
  l <~ read r ;; new_list (Ok (sorted key l)).

Definition getslice (r : ref) (i j : Z) : comp ref :=
  l <~ read r ;; new_list (Ok (slice l i j)).

Definition len (r : ref) : comp Z :=
  l <~ read r ;; ret (Z.of_nat (List.length l)).

Section GetTrades.
(** The reference held by the global [trades]. *)
Variable trades : ref.
Variable assetClass : option string.
Variable end_ : option datetime.
Variable maxPrice minPrice : option float.
Variable start : option datetime.
Variable tradeType : option string.
Variable page perPage : Z.
Variable sort : option string.

Definition filter_assetClass (filtered_trades : ref) : comp ref :=
  match assetClass with
  | Some a =>
      if Str.truthy a
      then list_comp
             (fun trade =>
                Ok (String.eqb (Str.lower (asset_class trade))
                      (Str.lower a)))
             filtered_trades
      else ret filtered_trades
  | None => ret filtered_trades
  end.

Definition filter_end (filtered_trades : ref) : comp ref :=
  match end_ with
  | Some e =>
      list_comp
        (fun trade => datetime_le (Naive (trade_date_time trade)) e)
        filtered_trades
  | None => ret filtered_trades
  end.

Definition filter_maxPrice (filtered_trades : ref) : comp ref :=
  match maxPrice with
  | Some m =>
      list_comp
        (fun trade => Ok (PrimFloat.leb (price (trade_details trade)) m))
        filtered_trades
  | None => ret filtered_trades
  end.

Definition filter_minPrice (filtered_trades : ref) : comp ref :=
  match minPrice with
  | Some m =>
      list_comp
        (fun trade => Ok (PrimFloat.leb m (price (trade_details trade))))
        filtered_trades
  | None => ret filtered_trades
  end.

Definition filter_start (filtered_trades : ref) : comp ref :=
  match start with
  | Some s =>
      list_comp
        (fun trade => datetime_ge (Naive (trade_date_time trade)) s)
        filtered_trades
  | None => ret filtered_trades
  end.

Definition filter_tradeType (filtered_trades : ref) : comp ref :=
  match tradeType with
  | Some ty =>
      if Str.truthy ty
      then list_comp
             (fun trade =>
                Ok (String.eqb
                      (Str.lower (buySellIndicator (trade_details trade)))
                      (Str.lower ty)))
             filtered_trades
      else ret filtered_trades
  | None => ret filtered_trades
  end.

Definition sort_stage (filtered_trades : ref) : comp ref :=
  match sort with
  | Some s =>
      if Str.truthy s then
        let field_name := Str.lower (Str.strip s) in
        if String.eqb field_name "assetclass"
        then sorted_ref asset_class filtered_trades
        else if String.eqb field_name "counterparty"
        then sorted_ref counterparty filtered_trades
        else if String.eqb field_name "instrumentid"
        then sorted_ref instrument_id filtered_trades
        else if String.eqb field_name "instrumentname"
        then sorted_ref instrument_name filtered_trades
        else if String.eqb field_name "tradedatetime"
        then sorted_ref trade_date_time filtered_trades
        else if String.eqb field_name "tradeid"
        then sorted_ref trade_id filtered_trades
        else if String.eqb field_name "trader"
        then sorted_ref trader filtered_trades
        else ret filtered_trades
      else ret filtered_trades
  | None => ret filtered_trades
  end.

Definition paginate (filtered_trades : ref) : comp ref :=
  total_trades <~ len filtered_trades ;;
  let start_index := (page - 1) * perPage in
  let end_index := start_index + perPage in
  getslice filtered_trades start_index end_index.

(** [get_trades]: the reference of the page it returns. *)
Definition get_trades : comp ref :=
  let filtered_trades := trades in
  filtered_trades <~ filter_assetClass filtered_trades ;;
  filtered_trades <~ filter_end filtered_trades ;;
  filtered_trades <~ filter_maxPrice filtered_trades ;;
  filtered_trades <~ filter_minPrice filtered_trades ;;
  filtered_trades <~ filter_start filtered_trades ;;
  filtered_trades <~ filter_tradeType filtered_trades ;;
  filtered_trades <~ sort_stage filtered_trades ;;
  paginate filtered_trades.
End GetTrades.

(** The requests of GET /trades, with [page] and [perPage] as the
    function receives them, and the responses that the route serializes
    under [response_model=List[Trade]]: the records of the page. *)
Inductive request : Type :=
| GetTrades (assetClass : option string) (end_ : option datetime)
    (maxPrice minPrice : option float) (start : option datetime)
    (tradeType : option string) (page perPage : Z) (sort : option string).

Inductive response : Type :=
| Page (l : list Trade).

Definition handle (trades : ref) (rq : request) : comp response :=
  match rq with
  | GetTrades ac e mx mn s ty p n so =>
      r <~ get_trades trades ac e mx mn s ty p n so ;;
      l <~ read r ;;
      ret (Page l)
  end.

(** The requests are served one after the other on the same heap; a
    request that raises is answered by its exception and the service
    goes on. *)
Fixpoint serve (trades : ref) (rqs : list request) (h : heap)
  : list (result response) * heap :=
  match rqs with
  | [] => ([], h)
  | rq :: rqs' =>
      let (a, h') := handle trades rq h in
      let (answers, h'') := serve trades rqs' h' in
      (a :: answers, h'')
  end.

End Refs.

(* ================================================================== *)
(** * The words of the specification *)

Module Spec.

(** Two strings match case-insensitively when their lower cases are
    equal. *)
Definition eq_nocase (a b : string) : bool :=
  String.eqb (Str.lower a) (Str.lower b).

(** The sort fields the specification recognizes. *)
Inductive sort_field : Type :=
| AssetClass | Counterparty | InstrumentId | InstrumentName
| TradeDateTime | TradeId | Trader.

Definition field_name (f : sort_field) : string :=
  match f with
  | AssetClass => "assetClass"
  | Counterparty => "counterparty"
  | InstrumentId => "instrumentId"
  | InstrumentName => "instrumentName"
  | TradeDateTime => "tradeDateTime"
  | TradeId => "tradeId"
  | Trader => "trader"
  end.

Definition all_fields : list sort_field :=
  [AssetClass; Counterparty; InstrumentId; InstrumentName;
   TradeDateTime; TradeId; Trader].

(** A sort value names a recognized field when it matches the field's
    name case-insensitively. *)
Definition names_field (s : string) (f : sort_field) : bool :=
  eq_nocase s (field_name f).

Definition recognized (s : string) : bool :=
  existsb (names_field s) all_fields.

(** The natural ordering of a field: lexicographic on strings,
    chronological on timestamps. *)
Definition field_le (f : sort_field) (a b : Trade) : bool :=
  match f with
  | AssetClass => String.leb (asset_class a) (asset_class b)
  | Counterparty => String.leb (counterparty a) (counterparty b)
  | InstrumentId => String.leb (instrument_id a) (instrument_id b)
  | InstrumentName => String.leb (instrument_name a) (instrument_name b)
  | TradeDateTime => Z.leb (trade_date_time a) (trade_date_time b)
  | TradeId => String.leb (trade_id a) (trade_id b)
  | Trader => String.leb (trader a) (trader b)
  end.

(** Two records have equal sort-key values. *)
Definition same_key (f : sort_field) (a b : Trade) : bool :=
  match f with
  | AssetClass => String.eqb (asset_class a) (asset_class b)
  | Counterparty => String.eqb (counterparty a) (counterparty b)
  | InstrumentId => String.eqb (instrument_id a) (instrument_id b)
  | InstrumentName => String.eqb (instrument_name a) (instrument_name b)
  | TradeDateTime => Z.eqb (trade_date_time a) (trade_date_time b)
  | TradeId => String.eqb (trade_id a) (trade_id b)
  | Trader => String.eqb (trader a) (trader b)
  end.

(** The comparison [a <= b] of two timestamps returns, and returns
    true. *)
Definition dt_leb (a b : datetime) : bool :=
  match datetime_le a b with
  | Ok r => r
  | Raise _ => false
  end.

(** The predicate of a supplied filter; an absent filter imposes no
    constraint. *)
Definition supplied {P : Type} (o : option P) (p : P -> bool) : bool :=
  match o with
  | Some v => p v
  | None => true
  end.

(** The same for a string filter that is active only when it is not
    the empty string. *)
Definition active (o : option string) (p : string -> bool) : bool :=
  match o with
  | Some v => if Str.truthy v then p v else true
  | None => true
  end.

Section Predicates.
Variable assetClass : option string.
Variable end_ : option datetime.
Variable maxPrice minPrice : option float.
Variable start : option datetime.
Variable tradeType : option string.
Variable t : Trade.

Definition asset_ok : bool :=
  active assetClass (eq_nocase (asset_class t)).

Definition end_ok : bool :=
  supplied end_ (fun e => dt_leb (Naive (trade_date_time t)) e).

Definition max_ok : bool :=
  supplied maxPrice (fun m => PrimFloat.leb (price (trade_details t)) m).

Definition min_ok : bool :=
  supplied minPrice (fun m => PrimFloat.leb m (price (trade_details t))).

Definition start_ok : bool :=
  supplied start (fun s => dt_leb s (Naive (trade_date_time t))).

Definition type_ok : bool :=
  active tradeType (eq_nocase (buySellIndicator (trade_details t))).

Definition date_ok : bool := end_ok && start_ok.

Definition price_ok : bool := max_ok && min_ok.

(** Every supplied filter holds, as the specification words it. *)
Definition satisfies_supplied : bool :=
  supplied assetClass (eq_nocase (asset_class t))
  && date_ok && price_ok
  && supplied tradeType (eq_nocase (buySellIndicator (trade_details t))).

(** Every filter that the code takes as active holds. *)
Definition satisfies_active : bool :=
  asset_ok && date_ok && price_ok && type_ok.
End Predicates.

(** A bound that is absent or naive can be compared with every stored
    timestamp. *)
Definition naive_or_absent (o : option datetime) : Prop :=
  match o with
  | Some (Aware _ _) => False
  | _ => True
  end.

(** The page of a list: at most [perPage] records from the offset
    [(page - 1) * perPage] on. *)
Definition page_of {A} (l : list A) (page perPage : Z) : list A :=
  firstn (Z.to_nat perPage) (skipn (Z.to_nat ((page - 1) * perPage)) l).

End Spec.

(** The sort of the filtered set by a recognized field. *)
Definition sorted_by (f : Spec.sort_field) (l : list Trade) : list Trade :=
  match f with
  | Spec.AssetClass => sorted asset_class l
  | Spec.Counterparty => sorted counterparty l
  | Spec.InstrumentId => sorted instrument_id l
  | Spec.InstrumentName => sorted instrument_name l
  | Spec.TradeDateTime => sorted trade_date_time l
  | Spec.TradeId => sorted trade_id l
  | Spec.Trader => sorted trader l
  end.

(* ================================================================== *)
(** * What the heap model is compared with *)

(** [h'] has the objects of [h], unchanged, and maybe new ones. *)
Definition extends (h h' : Refs.heap) : Prop :=
  exists ext, h' = (h ++ ext)%list.

(** A stage on references does what a stage on lists does: it returns
    the reference of the list that the pure stage returns, or raises
    when the pure stage raises, and it only adds objects. *)
Definition refines (st : Refs.ref -> Refs.comp Refs.ref)
  (ps : list Trade -> result (list Trade)) : Prop :=
  forall h r, (r < List.length h)%nat ->
    match st r h with
    | (Ok r', h') =>
        extends h h' /\ (r' < List.length h')%nat
        /\ ps (Refs.deref h r) = Ok (Refs.deref h' r')
    | (Raise e, h') => extends h h' /\ ps (Refs.deref h r) = Raise e
    end.

(** The answer to a request, computed from the store alone. *)
Definition answer (store : list Trade) (rq : Refs.request)
  : result Refs.response :=
  match rq with
  | Refs.GetTrades ac e mx mn s ty p n so =>
      fmap Refs.Page (get_trades store ac e mx mn s ty p n so)
  end.

(* ================================================================== *)
(** * A small store to run the endpoints on *)

Definition trade_B : Trade :=
  mkTrade "Bond" "Acme Ltd" "TSLA" "tesla" 1000
    (mkTradeDetails "BUY" 10%float 5) "B" "bob".

Definition trade_A : Trade :=
  mkTrade "FX" "Zeta Inc" "AAPL" "apple" 2000
    (mkTradeDetails "SELL" 50%float 7) "A" "alice".

Definition trade_C : Trade :=
  mkTrade "Equity" "Acme Ltd" "AMZN" "amazon" 3000
    (mkTradeDetails "BUY" 90%float 1) "C" "carol".

Definition store3 : list Trade := [trade_B; trade_A; trade_C].

(* ================================================================== *)
(** * Startup: the generated store *)

(** What the default factories of [TradeDetails] and [Trade] call:
    Faker's generators, [dt.datetime.now] and [str.upper].  A generator
    reads and advances the state [W] of the world outside the program,
    the random source and the clock; [datetime_now] gives the wall-clock
    count of a naive datetime. *)
Class Library (W : Type) : Type := {
  random_element : list string -> W -> string * W;
  company : W -> string * W;
  word : W -> string * W;
  uuid4 : W -> string * W;
  pyfloat : Z -> Z -> W -> float * W;
  random_int : Z -> Z -> W -> Z * W;
  datetime_now : W -> Z * W;
  str_upper : string -> string
}.

(** What the generators promise: [random_element] returns an element of
    its argument and [random_int(min, max)] a number from [min] to
    [max]. *)
Class LibraryLaws (W : Type) `{Library W} : Prop := {
  random_element_in : forall l w,
    l <> [] -> In (fst (random_element l w)) l;
  random_int_range : forall lo hi w,
    lo <= hi -> lo <= fst (random_int lo hi w) <= hi
}.

(** A computation that uses the world. *)
Definition gen (W A : Type) : Type := W -> A * W.

Definition retg {W A} (a : A) : gen W A := fun w => (a, w).

Definition bindg {W A B} (m : gen W A) (k : A -> gen W B) : gen W B :=
  fun w => let (a, w') := m w in k a w'.

Declare Scope gen_scope.
Delimit Scope gen_scope with gen.
Notation "x <~ m ;; k" := (bindg m (fun x => k))
  (at level 61, m at next level, right associativity) : gen_scope.

Section Startup.
Context {W : Type} `{Library W}.
Local Open Scope gen_scope.

(** [TradeDetails()]: the default factories, in the order of the
    fields. *)
Definition new_TradeDetails : gen W TradeDetails :=
  buySellIndicator <~ random_element ["BUY"; "SELL"] ;;
  price <~ pyfloat 0 100 ;;
  quantity <~ random_int 1 1000 ;;
  retg (mkTradeDetails buySellIndicator price quantity).

(** [Trade()]. *)
Definition new_Trade : gen W Trade :=
  asset_class <~ random_element ["Equity"; "Bond"; "FX"] ;;
  counterparty <~ company ;;
  instrument_id <~ word ;;
  instrument_name <~ word ;;
  trade_date_time <~ datetime_now ;;
  trade_details <~ new_TradeDetails ;;
  trade_id <~ uuid4 ;;
  trader <~ uuid4 ;;
  retg (mkTrade asset_class counterparty (str_upper instrument_id)
          instrument_name trade_date_time trade_details trade_id trader).

(** The loop of [generate_random_trades], with the list built so far. *)
Fixpoint generate_loop (n : nat) (trades : list Trade)
  : gen W (list Trade) :=
  match n with
  | O => retg trades
  | S n' =>
      trade <~ new_Trade ;;
      generate_loop n' (trades ++ [trade])%list
  end.

(** [range(num_trades)] is empty for a number that is not positive. *)
Definition generate_random_trades (num_trades : Z) : gen W (list Trade) :=
  let trades := [] in
  generate_loop (Z.to_nat num_trades) trades.

(** [trades = generate_random_trades(100)], at the load of the module. *)
Definition startup : gen W (list Trade) := generate_random_trades 100.

End Startup.

(** A world to run the generators in: a counter that every call
    advances. *)
Definition ascii_upper_char (c : ascii) : ascii :=
  let n := N_of_ascii c in
  if ((97 <=? n) && (n <=? 122))%N then ascii_of_N (n - 32) else c.

Fixpoint ascii_upper (s : string) : string :=
  match s with
  | EmptyString => EmptyString
  | String c s' => String (ascii_upper_char c) (ascii_upper s')
  end.

#[export] Instance counter_library : Library nat := {
  random_element l w := (nth (w mod List.length l) l "", S w);
  company w := ("Acme Ltd", S w);
  word w := (if Nat.even w then "tesla" else "apple", S w);
  uuid4 w := (String (ascii_of_nat (48 + w mod 10)) "-id", S w);
  pyfloat lo hi w := (50%float, S w);
  random_int lo hi w := (Z.max lo (Z.min hi (Z.of_nat w)), S w);
  datetime_now w := (Z.of_nat w, S w);
  str_upper := ascii_upper
}.

(* ================================================================== *)
(** * The declared constraints of the query parameters *)

(** [Query(default, ge=..., le=...)] on an integer parameter: the
    default for an absent parameter, and no value when a bound is
    violated. *)
Definition Query_int (default : Z) (ge le : option Z) (v : option Z)
  : option Z :=
  match v with
  | None => Some default
  | Some n =>
      let above := match ge with Some g => g <=? n | None => true end in
      let below := match le with Some m => n <=? m | None => true end in
      if above && below then Some n else None
  end.

(** What the route does with a request: the validation error 422,
    before the function is called, or the call. *)
Inductive served : Type :=
| Unprocessable
| Called (r : result (list Trade)).

(** The route GET /trades: [page = Query(1, ge=1)] and
    [perPage = Query(10, ge=1, le=100)]; the other parameters are
    [Query(None)] and reach the function as they are. *)
Definition get_trades_route (trades : list Trade)
  (assetClass : option string) (end_ : option datetime)
  (maxPrice minPrice : option float) (start : option datetime)
  (tradeType : option string) (page perPage : option Z)
  (sort : option string) : served :=
  match Query_int 1 (Some 1) None page,
        Query_int 10 (Some 1) (Some 100) perPage with
  | Some page, Some perPage =>
      Called (get_trades trades assetClass end_ maxPrice minPrice start
                tradeType page perPage sort)
  | _, _ => Unprocessable
  end.

(** The keys under which [Trade], called with the items of a dict as
    its keyword arguments, reads its fields: the alias of a field that
    has one, the name of the field otherwise. *)
Definition Trade_keys : list string :=
  ["assetClass"; "counterparty"; "instrumentId"; "instrumentName";
   "tradeDateTime"; "tradeDetails"; "tradeId"; "trader"].

Definition names_a_field (d : list (string * string)) : bool :=
  existsb (fun kv => existsb (String.eqb (fst kv)) Trade_keys) d.

Section LookupRoute.
Context {W : Type} `{Library W}.
Local Open Scope gen_scope.

(** [response_model=Trade] on what the function returns: a Trade is
    served with its own fields; a dict [d] is validated as [Trade]
    called with the items of [d] as keyword arguments, and when no key
    of [d] is a field of Trade every field is built by its default
    factory.  A dict that names a field is outside this model: no
    value. *)
Definition response_model_Trade (v : value) : gen W (option Trade) :=
  match v with
  | VTrade trade => retg (Some trade)
  | VDict d =>
      if names_a_field d then retg None
      else trade <~ new_Trade ;; retg (Some trade)
  end.

(** The route GET /trades/{trade_id}. *)
Definition get_trade_route (trades : list Trade) (trade_id_ : string)
  : gen W (option Trade) :=
  response_model_Trade (get_trade trades trade_id_).

(** What [new_Trade] takes from the generators, field by field. *)
Definition from_generators (t : Trade) : Prop :=
  (exists w, instrument_id t = str_upper (fst (word w)))
  /\ (exists w, instrument_name t = fst (word w))
  /\ (exists w, counterparty t = fst (company w))
  /\ (exists w, trade_id t = fst (uuid4 w))
  /\ (exists w, trader t = fst (uuid4 w)).

End LookupRoute.

(** A date bound is supplied and aware. *)
Definition aware (o : option datetime) : bool :=
  match o with
  | Some (Aware _ _) => true
  | _ => false
  end.

(** A computation on the heap only adds objects. *)
Definition grows {A} (m : Refs.comp A) : Prop :=
  forall h, extends h (snd (m h)).

(** When it returns, it returns a reference to an object that it has
    allocated itself. *)
Definition allocates (m : Refs.comp Refs.ref) : Prop :=
  forall h r h',
    m h = (Ok r, h') ->
    (List.length h <= r < List.length h')%nat /\ extends h h'.

(* ================================================================== *)
(** * Facts about the string operations *)

Module StrFacts.
Import Str.

Lemma isspace_lower_char (c : ascii) : isspace (lower_char c) = isspace c.
Proof.
  destruct c as [[] [] [] [] [] [] [] []]; reflexivity.
Qed.

Lemma lower_empty (s : string) : lower s = EmptyString -> s = EmptyString.
Proof. destruct s; [reflexivity | discriminate]. Qed.

Lemma lower_lstrip (s : string) : lower (lstrip s) = lstrip (lower s).
Proof.
  induction s as [| c s IH]; simpl; [reflexivity |].
  rewrite isspace_lower_char.
  destruct (isspace c); [exact IH | reflexivity].
Qed.

Lemma lower_rstrip (s : string) : lower (rstrip s) = rstrip (lower s).
Proof.
  induction s as [| c s IH]; simpl; [reflexivity |].
  rewrite <- IH, isspace_lower_char.
  destruct (rstrip s) as [| d r]; simpl.
  - destruct (isspace c); reflexivity.
  - reflexivity.
Qed.

(** Stripping and lower-casing commute. *)
Lemma lower_strip (s : string) : lower (strip s) = strip (lower s).
Proof. unfold strip. now rewrite lower_rstrip, lower_lstrip. Qed.

Lemma truthy_false (s : string) : truthy s = false -> s = EmptyString.
Proof.
  unfold truthy. destruct s; [reflexivity | discriminate].
Qed.

End StrFacts.

(* ================================================================== *)
(** * Facts about comprehensions and the filter stage *)

Lemma bind_ok {A B} (m : result A) (k : A -> result B) (b : B) :
  bind m k = Ok b -> exists a, m = Ok a /\ k a = Ok b.
Proof.
  destruct m as [a | e]; simpl; [| discriminate].
  intros Hk. now exists a.
Qed.

Lemma bind_ret {A B} (a : A) (k : A -> result B) : bind (Ok a) k = k a.
Proof. reflexivity. Qed.

Lemma comprehension_pure {A} (p : A -> bool) (l : list A) :
  comprehension (fun x => Ok (p x)) l = Ok (filter p l).
Proof.
  induction l as [| x l IH]; simpl; [reflexivity |].
  rewrite IH. simpl. reflexivity.
Qed.

(** A comprehension that returns has kept the elements on which its
    condition returned true. *)
Lemma comprehension_ok {A} (cond : A -> result bool) (l r : list A) :
  comprehension cond l = Ok r ->
  r = filter (fun x => match cond x with Ok b => b | Raise _ => false end) l.
Proof.
  revert r. induction l as [| x l IH]; simpl; intros r Hr.
  - now inversion Hr.
  - destruct (cond x) as [b | e]; simpl in Hr; [| discriminate].
    destruct (comprehension cond l) as [r' | e]; simpl in Hr; [| discriminate].
    inversion Hr; subst. rewrite (IH r' eq_refl). reflexivity.
Qed.

Lemma filter_filter {A} (p q : A -> bool) (l : list A) :
  filter q (filter p l) = filter (fun x => p x && q x) l.
Proof.
  induction l as [| x l IH]; simpl; [reflexivity |].
  destruct (p x); simpl; [destruct (q x) |]; now rewrite IH.
Qed.

Lemma filter_true {A} (l : list A) : filter (fun _ => true) l = l.
Proof. induction l as [| x l IH]; simpl; [| rewrite IH]; reflexivity. Qed.

Lemma datetime_ge_le (a b : datetime) : datetime_ge a b = datetime_le b a.
Proof.
  destruct a, b; simpl; try reflexivity; f_equal; apply Z.geb_leb.
Qed.

Section FilterStage.
Variable trades : list Trade.
Variable assetClass : option string.
Variable end_ : option datetime.
Variable maxPrice minPrice : option float.
Variable start : option datetime.
Variable tradeType : option string.

Lemma filter_assetClass_eq (l : list Trade) :
  filter_assetClass assetClass l = Ok (filter (Spec.asset_ok assetClass) l).
Proof.
  unfold filter_assetClass, Spec.asset_ok, Spec.active.
  destruct assetClass as [a |]; [destruct (Str.truthy a) |].
  - apply comprehension_pure.
  - now rewrite filter_true.
  - now rewrite filter_true.
Qed.

Lemma filter_tradeType_eq (l : list Trade) :
  filter_tradeType tradeType l = Ok (filter (Spec.type_ok tradeType) l).
Proof.
  unfold filter_tradeType, Spec.type_ok, Spec.active.
  destruct tradeType as [a |]; [destruct (Str.truthy a) |].
  - apply comprehension_pure.
  - now rewrite filter_true.
  - now rewrite filter_true.
Qed.

Lemma filter_maxPrice_eq (l : list Trade) :
  filter_maxPrice maxPrice l = Ok (filter (Spec.max_ok maxPrice) l).
Proof.
  unfold filter_maxPrice, Spec.max_ok, Spec.supplied.
  destruct maxPrice as [m |].
  - apply comprehension_pure.
  - now rewrite filter_true.
Qed.

Lemma filter_minPrice_eq (l : list Trade) :
  filter_minPrice minPrice l = Ok (filter (Spec.min_ok minPrice) l).
Proof.
  unfold filter_minPrice, Spec.min_ok, Spec.supplied.
  destruct minPrice as [m |].
  - apply comprehension_pure.
  - now rewrite filter_true.
Qed.

Lemma filter_end_ok (l r : list Trade) :
  filter_end end_ l = Ok r -> r = filter (Spec.end_ok end_) l.
Proof.
  unfold filter_end, Spec.end_ok, Spec.supplied, Spec.dt_leb.
  destruct end_ as [e |].
  - apply comprehension_ok.
  - intros Hr. inversion Hr. now rewrite filter_true.
Qed.

Lemma filter_start_ok (l r : list Trade) :
  filter_start start l = Ok r -> r = filter (Spec.start_ok start) l.
Proof.
  unfold filter_start, Spec.start_ok, Spec.supplied, Spec.dt_leb.
  destruct start as [s |].
  - intros Hr. apply comprehension_ok in Hr. subst r.
    apply filter_ext. intros t. now rewrite datetime_ge_le.
  - intros Hr. inversion Hr. now rewrite filter_true.
Qed.

Lemma filter_end_naive (l : list Trade) :
  Spec.naive_or_absent end_ ->
  filter_end end_ l = Ok (filter (Spec.end_ok end_) l).
Proof.
  unfold filter_end, Spec.end_ok, Spec.supplied, Spec.dt_leb.
  destruct end_ as [[e | e o] |]; simpl; intros Hn.
  - apply comprehension_pure.
  - contradiction.
  - now rewrite filter_true.
Qed.

Lemma filter_start_naive (l : list Trade) :
  Spec.naive_or_absent start ->
  filter_start start l = Ok (filter (Spec.start_ok start) l).
Proof.
  unfold filter_start, Spec.start_ok, Spec.supplied, Spec.dt_leb.
  destruct start as [[s | s o] |]; simpl; intros Hn.
  - rewrite (comprehension_pure (fun t => trade_date_time t >=? s)).
    f_equal. apply filter_ext. intros t. apply Z.geb_leb.
  - contradiction.
  - now rewrite filter_true.
Qed.

Lemma satisfies_active_split (t : Trade) :
  Spec.satisfies_active assetClass end_ maxPrice minPrice start tradeType t
  = Spec.asset_ok assetClass t && Spec.end_ok end_ t
    && Spec.max_ok maxPrice t && Spec.min_ok minPrice t
    && Spec.start_ok start t && Spec.type_ok tradeType t.
Proof.
  unfold Spec.satisfies_active, Spec.date_ok, Spec.price_ok.
  destruct (Spec.asset_ok assetClass t), (Spec.end_ok end_ t),
    (Spec.max_ok maxPrice t), (Spec.min_ok minPrice t),
    (Spec.start_ok start t), (Spec.type_ok tradeType t); reflexivity.
Qed.

Lemma filter_chain :
  filter (Spec.type_ok tradeType)
    (filter (Spec.start_ok start)
       (filter (Spec.min_ok minPrice)
          (filter (Spec.max_ok maxPrice)
             (filter (Spec.end_ok end_)
                (filter (Spec.asset_ok assetClass) trades)))))
  = filter
      (Spec.satisfies_active assetClass end_ maxPrice minPrice start
         tradeType)
      trades.
Proof.
  rewrite !filter_filter. apply filter_ext. intros t.
  rewrite satisfies_active_split. cbv beta.
  now rewrite !andb_assoc.
Qed.

(** Whenever the filter stage returns, it returns the records on which
    every active filter holds, in the order of the store. *)
Lemma filter_stage_ok (fl : list Trade) :
  filter_stage trades assetClass end_ maxPrice minPrice start tradeType
  = Ok fl ->
  fl = filter
         (Spec.satisfies_active assetClass end_ maxPrice minPrice start
            tradeType)
         trades.
Proof.
  unfold filter_stage. rewrite filter_assetClass_eq, bind_ret.
  intros H.
  apply bind_ok in H. destruct H as [l1 [H1 H]].
  rewrite filter_maxPrice_eq, bind_ret, filter_minPrice_eq, bind_ret in H.
  apply bind_ok in H. destruct H as [l2 [H2 H]].
  rewrite filter_tradeType_eq in H. inversion H; subst fl.
  apply filter_end_ok in H1. apply filter_start_ok in H2. subst l2 l1.
  apply filter_chain.
Qed.

(** It returns whenever both date bounds are naive or absent. *)
Lemma filter_stage_naive :
  Spec.naive_or_absent start -> Spec.naive_or_absent end_ ->
  filter_stage trades assetClass end_ maxPrice minPrice start tradeType
  = Ok (filter
          (Spec.satisfies_active assetClass end_ maxPrice minPrice start
             tradeType)
          trades).
Proof.
  intros Hs He. unfold filter_stage.
  rewrite filter_assetClass_eq, bind_ret.
  rewrite (filter_end_naive _ He), bind_ret.
  rewrite filter_maxPrice_eq, bind_ret.
  rewrite filter_minPrice_eq, bind_ret.
  rewrite (filter_start_naive _ Hs), bind_ret.
  rewrite filter_tradeType_eq. now rewrite filter_chain.
Qed.

End FilterStage.

(* ================================================================== *)
(** * Facts about [sorted] *)

#[export] Instance naive_lt_total : PyLtTotal Z.
Proof.
  split; unfold py_lt, naive_lt; intros.
  - apply Z.ltb_irrefl.
  - rewrite Z.ltb_lt in *. lia.
  - rewrite Z.ltb_ge in *. lia.
Qed.

Lemma ascii_compare_refl (c : ascii) : Ascii.compare c c = Eq.
Proof. apply N.compare_refl. Qed.

Lemma ascii_compare_lt_trans (a b c : ascii) :
  Ascii.compare a b = Lt -> Ascii.compare b c = Lt -> Ascii.compare a c = Lt.
Proof.
  unfold Ascii.compare. rewrite !N.compare_lt_iff. apply N.lt_trans.
Qed.

Lemma string_compare_refl (s : string) : String.compare s s = Eq.
Proof.
  induction s as [| c s IH]; simpl; [reflexivity |].
  now rewrite ascii_compare_refl.
Qed.

Lemma string_compare_lt_trans (a b c : string) :
  String.compare a b = Lt -> String.compare b c = Lt ->
  String.compare a c = Lt.
Proof.
  revert b c. induction a as [| x a IH]; intros [| y b] [| z c]; simpl;
    try discriminate; try reflexivity.
  destruct (Ascii.compare x y) eqn:Hxy; try discriminate;
    destruct (Ascii.compare y z) eqn:Hyz; try discriminate; intros Hab Hbc.
  - apply Ascii.compare_eq_iff in Hxy, Hyz. subst.
    rewrite ascii_compare_refl. eauto.
  - apply Ascii.compare_eq_iff in Hxy. subst. now rewrite Hyz.
  - apply Ascii.compare_eq_iff in Hyz. subst. now rewrite Hxy.
  - now rewrite (ascii_compare_lt_trans _ _ _ Hxy Hyz).
Qed.

#[export] Instance str_lt_total : PyLtTotal string.
Proof.
  split; unfold py_lt, str_lt, String.ltb.
  - intros a. now rewrite string_compare_refl.
  - intros a b c Hab Hbc.
    destruct (String.compare a b) eqn:H1; try discriminate.
    destruct (String.compare b c) eqn:H2; try discriminate.
    now rewrite (string_compare_lt_trans _ _ _ H1 H2).
  - intros a b Hab Hba. apply String.compare_eq_iff.
    rewrite String.compare_antisym in Hba.
    destruct (String.compare a b); simpl in *; congruence.
Qed.

Lemma string_leb_ltb (a b : string) : String.leb a b = negb (String.ltb b a).
Proof.
  unfold String.leb, String.ltb. rewrite (String.compare_antisym a b).
  destruct (String.compare b a); reflexivity.
Qed.

Section SortedFacts.
Context {A K : Type} `{PyLtTotal K}.
Variable key : A -> K.

Lemma py_lt_asym (a b : K) : py_lt a b = true -> py_lt b a = false.
Proof.
  intros Hab. destruct (py_lt b a) eqn:Hba; [| reflexivity].
  rewrite <- (py_lt_irrefl a). symmetry. eapply py_lt_trans; eauto.
Qed.

Lemma key_le_trans (a b c : A) :
  key_le key a b -> key_le key b c -> key_le key a c.
Proof.
  unfold key_le. intros Hab Hbc.
  destruct (py_lt (key c) (key a)) eqn:Hca; [| reflexivity].
  destruct (py_lt (key a) (key b)) eqn:Hlt.
  - rewrite <- Hbc. symmetry. eapply py_lt_trans; eauto.
  - rewrite (py_lt_connex _ _ Hlt Hab) in Hca. congruence.
Qed.

Lemma insert_perm (x : A) (l : list A) :
  Permutation (x :: l) (insert key x l).
Proof.
  induction l as [| y l IH]; simpl; [reflexivity |].
  destruct (py_lt (key y) (key x)); [| reflexivity].
  rewrite perm_swap. now constructor.
Qed.

Lemma sorted_perm (l : list A) : Permutation l (sorted key l).
Proof.
  induction l as [| x l IH]; simpl; [constructor |].
  rewrite <- insert_perm. now constructor.
Qed.

Lemma sorted_length (l : list A) :
  List.length (sorted key l) = List.length l.
Proof. symmetry. apply Permutation_length, sorted_perm. Qed.

Lemma insert_sorted (x : A) (l : list A) :
  StronglySorted (key_le key) l ->
  StronglySorted (key_le key) (insert key x l).
Proof.
  induction 1 as [| y l Hl IH Hy]; simpl.
  - constructor; constructor.
  - destruct (py_lt (key y) (key x)) eqn:Hyx.
    + constructor; [exact IH |].
      eapply Permutation_Forall; [apply insert_perm |].
      constructor; [| exact Hy].
      unfold key_le. now apply py_lt_asym.
    + constructor; [now constructor |].
      constructor; [exact Hyx |].
      eapply Forall_impl; [| exact Hy].
      intros z Hz. eapply key_le_trans; eauto.
Qed.

(** The result of [sorted] is ascending by key. *)
Lemma sorted_ascending (l : list A) :
  StronglySorted (key_le key) (sorted key l).
Proof.
  induction l as [| x l IH]; simpl; [constructor |].
  now apply insert_sorted.
Qed.

Section Stable.
(** [p] selects records of one key. *)
Variable p : A -> bool.
Hypothesis p_one_key :
  forall a b, p a = true -> p b = true -> key a = key b.

Lemma insert_stable (x : A) (l : list A) :
  filter p (insert key x l) = filter p (x :: l).
Proof.
  induction l as [| y l IH]; simpl; [reflexivity |].
  destruct (py_lt (key y) (key x)) eqn:Hyx; [| reflexivity].
  simpl in *. rewrite IH.
  destruct (p x) eqn:Hx, (p y) eqn:Hy; try reflexivity.
  rewrite (p_one_key _ _ Hy Hx), py_lt_irrefl in Hyx. discriminate.
Qed.

(** The records of one key come out of [sorted] in the order they
    went in. *)
Lemma sorted_stable (l : list A) :
  filter p (sorted key l) = filter p l.
Proof.
  induction l as [| x l IH]; simpl; [reflexivity |].
  rewrite insert_stable. simpl. now rewrite IH.
Qed.
End Stable.

Lemma same_key_as_eq (x a : A) :
  same_key_as key x a = true <-> key x = key a.
Proof.
  unfold same_key_as. rewrite andb_true_iff, !negb_true_iff. split.
  - intros [Hxa Hax]. now apply py_lt_connex.
  - intros ->. now rewrite py_lt_irrefl.
Qed.

Lemma same_key_as_refl (x : A) : same_key_as key x x = true.
Proof. now apply same_key_as_eq. Qed.

Lemma head_least (x : A) (l : list A) (y : A) :
  StronglySorted (key_le key) (x :: l) -> In y (x :: l) -> key_le key x y.
Proof.
  intros Hs [<- | Hy].
  - apply py_lt_irrefl.
  - apply StronglySorted_inv in Hs. destruct Hs as [_ Hx].
    rewrite Forall_forall in Hx. now apply Hx.
Qed.

(** Two ascending lists with the same records of each key, in the same
    order, are the same list. *)
Lemma stable_sorted_unique (l1 l2 : list A) :
  StronglySorted (key_le key) l1 -> StronglySorted (key_le key) l2 ->
  (forall x, filter (same_key_as key x) l1 = filter (same_key_as key x) l2) ->
  l1 = l2.
Proof.
  revert l2. induction l1 as [| x l1 IH]; intros [| y l2] Hs1 Hs2 Hf.
  - reflexivity.
  - specialize (Hf y). simpl in Hf. rewrite same_key_as_refl in Hf.
    discriminate.
  - specialize (Hf x). simpl in Hf. rewrite same_key_as_refl in Hf.
    discriminate.
  - assert (Hx : In x (y :: l2)).
    { pose proof (Hf x) as Hfx. simpl filter at 1 in Hfx.
      rewrite same_key_as_refl in Hfx.
      eapply (proj1 (filter_In (same_key_as key x) x (y :: l2))).
      rewrite <- Hfx. now left. }
    assert (Hy : In y (x :: l1)).
    { pose proof (Hf y) as Hfy. simpl filter at 2 in Hfy.
      rewrite same_key_as_refl in Hfy.
      eapply (proj1 (filter_In (same_key_as key y) y (x :: l1))).
      rewrite Hfy. now left. }
    pose proof (head_least _ _ _ Hs2 Hx) as Hyx.
    pose proof (head_least _ _ _ Hs1 Hy) as Hxy.
    unfold key_le in Hyx, Hxy.
    assert (Hk : same_key_as key x y = true).
    { unfold same_key_as. now rewrite Hyx, Hxy. }
    pose proof (Hf x) as Hfx. simpl in Hfx.
    rewrite same_key_as_refl, Hk in Hfx. injection Hfx as Hxy' _.
    subst y. f_equal.
    apply StronglySorted_inv in Hs1, Hs2.
    apply IH; [tauto | tauto |].
    intros z. specialize (Hf z). simpl in Hf.
    destruct (same_key_as key z x); [now injection Hf | exact Hf].
Qed.

(** Hence [sorted] is the stable ascending sort, whatever the algorithm
    that computes it: a list that is ascending by key and keeps the
    records of each key in the order of [l] is [sorted key l]. *)
Lemma sorted_unique (l l' : list A) :
  StronglySorted (key_le key) l' ->
  (forall x, filter (same_key_as key x) l' = filter (same_key_as key x) l) ->
  l' = sorted key l.
Proof.
  intros Hs Hf. apply stable_sorted_unique.
  - exact Hs.
  - apply sorted_ascending.
  - intros x. rewrite Hf. symmetry. apply sorted_stable.
    intros a b Ha Hb. apply same_key_as_eq in Ha, Hb. congruence.
Qed.

End SortedFacts.

(* ================================================================== *)
(** * Facts about slices and pages *)

Lemma skipn_all_Z {A} (l : list A) (i : Z) :
  Z.of_nat (List.length l) <= i -> skipn (Z.to_nat i) l = [].
Proof. intros Hi. apply skipn_all2. lia. Qed.

(** With a lower index that is not negative and an upper index that is
    not below it, the slice is the plain window of the list. *)
Lemma slice_window {A} (l : list A) (i n : Z) :
  0 <= i -> 0 <= n ->
  slice l i (i + n) = firstn (Z.to_nat n) (skipn (Z.to_nat i) l).
Proof.
  intros Hi Hn. unfold slice, clamp.
  destruct (Z.ltb_spec i 0) as [? | _]; [lia |].
  destruct (Z.ltb_spec (i + n) 0) as [? | _]; [lia |].
  set (len := Z.of_nat (List.length l)).
  destruct (Z.le_gt_cases len i) as [Hout | Hin].
  - rewrite (Z.min_r i len) by lia.
    rewrite (skipn_all_Z l _ Hout).
    pose proof (skipn_all_Z l _ (Z.le_refl _)) as Hall. fold len in Hall.
    now rewrite Hall, !firstn_nil.
  - rewrite (Z.min_l i len) by lia.
    destruct (Z.le_gt_cases (i + n) len) as [Hfit | Hover].
    + rewrite (Z.min_l (i + n) len) by lia. f_equal. lia.
    + rewrite (Z.min_r (i + n) len) by lia.
      rewrite !firstn_all2; [reflexivity | |]; rewrite length_skipn;
        unfold len in *; lia.
Qed.

Lemma slice_page {A} (l : list A) (page perPage : Z) :
  1 <= page -> 1 <= perPage ->
  slice l ((page - 1) * perPage) ((page - 1) * perPage + perPage)
  = Spec.page_of l page perPage.
Proof.
  intros Hp Hn. unfold Spec.page_of. apply slice_window; nia.
Qed.

Lemma page_of_beyond {A} (l : list A) (page perPage : Z) :
  Z.of_nat (List.length l) <= (page - 1) * perPage ->
  Spec.page_of l page perPage = [].
Proof.
  intros Hout. unfold Spec.page_of.
  rewrite (skipn_all_Z l _ Hout). apply firstn_nil.
Qed.

Lemma page_of_length {A} (l : list A) (page perPage : Z) :
  (List.length (Spec.page_of l page perPage) <= Z.to_nat perPage)%nat.
Proof. unfold Spec.page_of. apply firstn_le_length. Qed.

Lemma firstn_plus {A} (a b : nat) (l : list A) :
  firstn (a + b) l = (firstn a l ++ firstn b (skipn a l))%list.
Proof.
  revert l. induction a as [| a IH]; intros l; simpl; [reflexivity |].
  destruct l as [| x l]; simpl.
  - now rewrite firstn_nil.
  - now rewrite IH.
Qed.

(** The first [k] pages, one after the other, are the first
    [k * perPage] records. *)
Lemma concat_pages {A} (l : list A) (perPage : Z) (k : nat) :
  1 <= perPage ->
  List.concat (map (fun p => Spec.page_of l (Z.of_nat p) perPage) (seq 1 k))
  = firstn (k * Z.to_nat perPage) l.
Proof.
  intros Hn. induction k as [| k IH]; [reflexivity |].
  rewrite seq_S, map_app, concat_app, IH. simpl.
  rewrite app_nil_r, (Nat.add_comm (Z.to_nat perPage)), firstn_plus.
  f_equal. unfold Spec.page_of. do 2 f_equal. nia.
Qed.

Lemma Forall2_map_fun {A B} (R : A -> B -> Prop) (f : A -> B) (l : list A) :
  (forall x, In x l -> R x (f x)) -> Forall2 R l (map f l).
Proof.
  induction l as [| x l IH]; simpl; intros HR; constructor; auto.
Qed.

(* ================================================================== *)
(** * Facts about [get_trades] *)

Section GetTradesFacts.
Variable trades : list Trade.
Variable assetClass : option string.
Variable end_ : option datetime.
Variable maxPrice minPrice : option float.
Variable start : option datetime.
Variable tradeType : option string.
Variable page perPage : Z.
Variable sort : option string.
Variable fl : list Trade.
Hypothesis filtered :
  filter_stage trades assetClass end_ maxPrice minPrice start tradeType
  = Ok fl.

Lemma get_trades_body_eq :
  get_trades_body trades assetClass end_ maxPrice minPrice start tradeType
    page perPage sort
  = Ok (paginate page perPage (sort_stage sort fl)).
Proof. unfold get_trades_body. now rewrite filtered. Qed.

Lemma get_trades_eq :
  get_trades trades assetClass end_ maxPrice minPrice start tradeType
    page perPage sort
  = Ok (slice (sort_stage sort fl) ((page - 1) * perPage)
          ((page - 1) * perPage + perPage)).
Proof. unfold get_trades. now rewrite get_trades_body_eq. Qed.

Lemma get_trades_page :
  1 <= page -> 1 <= perPage ->
  get_trades trades assetClass end_ maxPrice minPrice start tradeType
    page perPage sort
  = Ok (Spec.page_of (sort_stage sort fl) page perPage).
Proof. intros Hp Hn. now rewrite get_trades_eq, slice_page. Qed.

End GetTradesFacts.

(** The filter stage does not depend on the page or the sort, and a
    failure of the filter stage is the failure of the request. *)
Lemma get_trades_raise trades assetClass end_ maxPrice minPrice start
  tradeType page perPage sort e :
  filter_stage trades assetClass end_ maxPrice minPrice start tradeType
  = Raise e ->
  get_trades trades assetClass end_ maxPrice minPrice start tradeType
    page perPage sort = Raise e.
Proof.
  intros Hf. unfold get_trades, get_trades_body. now rewrite Hf.
Qed.

Lemma In_window {A} (l : list A) (n m : nat) (x : A) :
  In x (firstn n (skipn m l)) -> In x l.
Proof.
  intros Hx.
  rewrite <- (firstn_skipn m l). apply in_or_app. right.
  rewrite <- (firstn_skipn n (skipn m l)). apply in_or_app. now left.
Qed.

Lemma In_slice {A} (l : list A) (i j : Z) (x : A) :
  In x (slice l i j) -> In x l.
Proof. unfold slice. apply In_window. Qed.

Lemma StronglySorted_weaken {A} (R Q : A -> A -> Prop) (l : list A) :
  (forall a b, R a b -> Q a b) -> StronglySorted R l -> StronglySorted Q l.
Proof.
  intros HRQ. induction 1 as [| a l Hl IH Ha]; constructor; [exact IH |].
  eapply Forall_impl; [| exact Ha]. auto.
Qed.

Lemma slice_nil {A} (i j : Z) : slice (@nil A) i j = [].
Proof. unfold slice. now rewrite skipn_nil, firstn_nil. Qed.

(** The sort stage returns its argument or one of the seven sorts of
    it: in every case a permutation. *)
Lemma sort_stage_perm (sort : option string) (l : list Trade) :
  Permutation l (sort_stage sort l).
Proof.
  unfold sort_stage.
  destruct sort as [s |]; [| reflexivity].
  destruct (Str.truthy s); [| reflexivity].
  repeat match goal with
         | |- context [if ?b then _ else _] => destruct b
         end;
    solve [reflexivity | apply sorted_perm].
Qed.

Lemma sort_stage_length (sort : option string) (l : list Trade) :
  List.length (sort_stage sort l) = List.length l.
Proof. symmetry. apply Permutation_length, sort_stage_perm. Qed.

(** A sort value that matches a field name case-insensitively carries
    no surrounding white space, so the chain of the source reaches the
    branch of that field. *)
Lemma sort_stage_field (f : Spec.sort_field) (s : string) (l : list Trade) :
  Spec.names_field s f = true ->
  sort_stage (Some s) l = sorted_by f l.
Proof.
  unfold Spec.names_field, Spec.eq_nocase. intros Hs.
  apply String.eqb_eq in Hs.
  assert (Hne : Str.truthy s = true).
  { destruct s; [destruct f; discriminate | reflexivity]. }
  unfold sort_stage. rewrite Hne, StrFacts.lower_strip, Hs.
  destruct f; reflexivity.
Qed.

(** A sort value that names no field once stripped leaves the list as
    it is. *)
Lemma sort_stage_unrecognized (s : string) (l : list Trade) :
  Spec.recognized (Str.strip s) = false ->
  sort_stage (Some s) l = l.
Proof.
  unfold Spec.recognized, Spec.all_fields, Spec.names_field, Spec.eq_nocase.
  cbn [existsb Spec.field_name]. rewrite !orb_false_iff.
  intros (H1 & H2 & H3 & H4 & H5 & H6 & H7 & _).
  unfold sort_stage. destruct (Str.truthy s); [| reflexivity].
  cbv zeta. cbn [Str.lower Str.lower_char] in H1, H2, H3, H4, H5, H6, H7.
  change (String.eqb (Str.lower (Str.strip s)) "assetclass" = false) in H1.
  change (String.eqb (Str.lower (Str.strip s)) "counterparty" = false) in H2.
  change (String.eqb (Str.lower (Str.strip s)) "instrumentid" = false) in H3.
  change (String.eqb (Str.lower (Str.strip s)) "instrumentname" = false) in H4.
  change (String.eqb (Str.lower (Str.strip s)) "tradedatetime" = false) in H5.
  change (String.eqb (Str.lower (Str.strip s)) "tradeid" = false) in H6.
  change (String.eqb (Str.lower (Str.strip s)) "trader" = false) in H7.
  now rewrite H1, H2, H3, H4, H5, H6, H7.
Qed.

Lemma sorted_by_perm (f : Spec.sort_field) (l : list Trade) :
  Permutation l (sorted_by f l).
Proof. destruct f; apply sorted_perm. Qed.

Lemma sorted_by_ascending (f : Spec.sort_field) (l : list Trade) :
  StronglySorted (fun a b => Spec.field_le f a b = true) (sorted_by f l).
Proof.
  destruct f; simpl;
    (eapply StronglySorted_weaken; [| apply sorted_ascending]);
    unfold key_le, py_lt, str_lt, naive_lt; intros a b Hab;
    first [ now rewrite string_leb_ltb, Hab
          | apply Z.leb_le; apply Z.ltb_ge in Hab; lia ].
Qed.

Lemma sorted_by_stable (f : Spec.sort_field) (x : Trade) (l : list Trade) :
  filter (Spec.same_key f x) (sorted_by f l) = filter (Spec.same_key f x) l.
Proof.
  destruct f; simpl; apply sorted_stable; intros a b Ha Hb;
    first [ apply String.eqb_eq in Ha, Hb; congruence
          | apply Z.eqb_eq in Ha, Hb; congruence ].
Qed.

(* ================================================================== *)
(** * Runs on the small store *)

(** Two runs: with prices 10, 50 and 90, [minPrice=20&maxPrice=90] keeps
    the last two records in store order, and
    [sort=tradeId&perPage=1&page=2] on that result is the record of the
    greater id. *)
Example price_range_example :
  get_trades store3 None None (Some 90%float) (Some 20%float) None None
    1 10 None
  = Ok [trade_A; trade_C].
Proof. reflexivity. Qed.

Example sort_page_example :
  get_trades store3 None None (Some 90%float) (Some 20%float) None None
    2 1 (Some "tradeId")
  = Ok [trade_C].
Proof. reflexivity. Qed.

(* ================================================================== *)
(** * The lookup *)

(** The lookup returns the first record of the store with the given id. *)
Lemma get_trade_found (before after : list Trade) (t : Trade) (id : string) :
  (forall u, In u before -> trade_id u <> id) ->
  trade_id t = id ->
  get_trade (before ++ t :: after) id = VTrade t.
Proof.
  intros Hbefore Ht. induction before as [| u before IH]; simpl.
  - now rewrite (proj2 (String.eqb_eq _ _) Ht).
  - rewrite (proj2 (String.eqb_neq _ _) (Hbefore u (or_introl eq_refl))).
    apply IH. intros v Hv. apply Hbefore. now right.
Qed.

(** With no record of the given id, the lookup returns the dict
    [{"error": "Trade not found"}] as its value. *)
Lemma get_trade_absent (trades : list Trade) (id : string) :
  (forall u, In u trades -> trade_id u <> id) ->
  get_trade trades id = VDict [("error", "Trade not found")].
Proof.
  induction trades as [| u trades IH]; simpl; intros Habs; [reflexivity |].
  rewrite (proj2 (String.eqb_neq _ _) (Habs u (or_introl eq_refl))).
  apply IH. intros v Hv. apply Habs. now right.
Qed.

(** The comparison is exact: an id that differs only by case is
    another id. *)
Example get_trade_case_sensitive :
  get_trade store3 "a" = VDict [("error", "Trade not found")]
  /\ get_trade store3 "A" = VTrade trade_A.
Proof. split; reflexivity. Qed.

(** C1: the lookup of an id that no record of the store has.  The claim
    asks for a not-found signal; the code returns normally, and what it
    returns is the dict [{"error": "Trade not found"}] where the endpoint
    declares a [Trade]. *)
Theorem get_trade_absent_id_returns_dict :
  get_trade store3 "Z" = VDict [("error", "Trade not found")]
  /\ (forall u, In u store3 -> trade_id u <> "Z").
Proof.
  split; [reflexivity |].
  intros u [<- | [<- | [<- | []]]]; discriminate.
Qed.

(* ================================================================== *)
(** * The claims on the query pipeline *)

(** C2, as stated: the count of the filtered set would be exposed to
    the caller by the response.  Two requests with the same response
    and different counts show that no reading of the response gives the
    count. *)
Lemma total_count_not_in_response :
  ~ exists f : result (list Trade) -> result Z,
      forall trades assetClass end_ maxPrice minPrice start tradeType
             page perPage sort,
        f (get_trades trades assetClass end_ maxPrice minPrice start
             tradeType page perPage sort)
        = fmap total_trades
            (get_trades_body trades assetClass end_ maxPrice minPrice start
               tradeType page perPage sort).
Proof.
  intros [f Hf].
  pose proof (Hf [trade_B] None None None None None None 1 1 None) as H1.
  pose proof (Hf [trade_B; trade_A] None None None None None None 1 1 None)
    as H2.
  change (f (Ok [trade_B]) = Ok 1) in H1.
  change (f (Ok [trade_B]) = Ok 2) in H2.
  congruence.
Qed.

(** C2, amended: when the filter stage returns, [total_trades] is the
    number of records of the filtered set, the response is the page
    alone, and on an empty filtered set the page is empty and the count
    is 0. *)
Theorem total_trades_counts_filtered
  trades assetClass end_ maxPrice minPrice start tradeType page perPage sort
  fl :
  filter_stage trades assetClass end_ maxPrice minPrice start tradeType
  = Ok fl ->
  exists loc,
    get_trades_body trades assetClass end_ maxPrice minPrice start tradeType
      page perPage sort = Ok loc
    /\ total_trades loc = Z.of_nat (List.length fl)
    /\ get_trades trades assetClass end_ maxPrice minPrice start tradeType
         page perPage sort = Ok (paginated_trades loc)
    /\ (fl = [] -> paginated_trades loc = [] /\ total_trades loc = 0).
Proof.
  intros Hfl.
  exists (paginate page perPage (sort_stage sort fl)).
  split; [now apply get_trades_body_eq |].
  cbn [total_trades paginated_trades paginate].
  rewrite sort_stage_length. repeat split.
  - now apply get_trades_eq.
  - subst fl.
    assert (Hnil : sort_stage sort [] = []).
    { apply length_zero_iff_nil. now rewrite sort_stage_length. }
    rewrite Hnil. apply slice_nil.
  - now subst fl.
Qed.

Lemma total_trades_counts_filtered_witness :
  exists loc,
    get_trades_body store3 (Some "crypto") None None None None None 1 10 None
    = Ok loc
    /\ total_trades loc = Z.of_nat (List.length (@nil Trade))
    /\ get_trades store3 (Some "crypto") None None None None None 1 10 None
       = Ok (paginated_trades loc)
    /\ (@nil Trade = [] -> paginated_trades loc = [] /\ total_trades loc = 0).
Proof.
  apply (total_trades_counts_filtered store3 (Some "crypto") None None None
           None None 1 10 None []).
  reflexivity.
Defined.

(** C3, as stated: every supplied filter would be a constraint.  An
    empty [assetClass] is supplied, no record has the empty asset class,
    and yet the record stays. *)
Lemma empty_assetClass_keeps_every_record :
  filter_stage [trade_B] (Some "") None None None None None = Ok [trade_B]
  /\ filter (Spec.satisfies_supplied (Some "") None None None None None)
       [trade_B] = [].
Proof. split; reflexivity. Qed.

(** C3, amended: the filtered set is made of the records on which every
    active filter holds, in store order, where [assetClass] and
    [tradeType] are active when supplied and not empty; the filter stage
    returns it whenever both date bounds are naive or absent; and every
    record of every page is a record of the store on which every active
    filter holds. *)
Theorem filter_stage_conjunction
  trades assetClass end_ maxPrice minPrice start tradeType :
  let keep :=
    Spec.satisfies_active assetClass end_ maxPrice minPrice start tradeType in
  (forall fl,
      filter_stage trades assetClass end_ maxPrice minPrice start tradeType
      = Ok fl ->
      fl = filter keep trades)
  /\ (Spec.naive_or_absent start -> Spec.naive_or_absent end_ ->
      filter_stage trades assetClass end_ maxPrice minPrice start tradeType
      = Ok (filter keep trades))
  /\ (forall page perPage sort pg t,
         get_trades trades assetClass end_ maxPrice minPrice start tradeType
           page perPage sort = Ok pg ->
         In t pg -> In t trades /\ keep t = true).
Proof.
  intros keep. split; [| split].
  - intros fl. apply filter_stage_ok.
  - intros Hs He. now apply filter_stage_naive.
  - intros page perPage sort pg t Hpg Ht.
    destruct (filter_stage trades assetClass end_ maxPrice minPrice start
                tradeType) as [fl | e] eqn:Hfl.
    + rewrite (get_trades_eq _ _ _ _ _ _ _ page perPage sort _ Hfl) in Hpg.
      inversion Hpg; subst pg.
      apply In_slice in Ht.
      apply (Permutation_in _ (Permutation_sym (sort_stage_perm sort fl)))
        in Ht.
      rewrite (filter_stage_ok _ _ _ _ _ _ _ _ Hfl) in Ht.
      now apply filter_In in Ht.
    + rewrite (get_trades_raise _ _ _ _ _ _ _ page perPage sort _ Hfl) in Hpg.
      discriminate.
Qed.

Lemma filter_stage_conjunction_witness :
  filter_stage store3 (Some "BOND") (Some (Naive 2500)) None
    (Some 5%float) (Some (Naive 1000)) (Some "buy")
  = Ok [trade_B].
Proof.
  apply (proj1 (proj2 (filter_stage_conjunction store3 (Some "BOND")
                         (Some (Naive 2500)) None (Some 5%float)
                         (Some (Naive 1000)) (Some "buy"))));
    exact I.
Defined.

(** C4: a date bound that carries a UTC offset, on a store whose first
    record has the naive timestamp 1000.  The claim has the record pass
    the date filter exactly when it lies within the bounds, for every
    supplied [start] and [end]; with the aware [end] or the aware
    [start] the comparison with the stored timestamp raises TypeError,
    in the comprehension of the filter, and no record passes or fails:
    the filter has no result.  It is the defect of C9, met in the date
    filter itself. *)
Theorem aware_bound_breaks_date_filter :
  datetime_le (Naive (trade_date_time trade_B)) (Aware 2500 0)
  = Raise TypeError
  /\ datetime_ge (Naive (trade_date_time trade_B)) (Aware 500 0)
     = Raise TypeError
  /\ filter_end (Some (Aware 2500 0)) store3 = Raise TypeError
  /\ filter_start (Some (Aware 500 0)) store3 = Raise TypeError
  /\ filter_stage store3 None (Some (Aware 2500 0)) None None None None
     = Raise TypeError
  /\ filter_stage store3 None None None None (Some (Aware 500 0)) None
     = Raise TypeError.
Proof. repeat split; reflexivity. Qed.

(** C5: with a sort value that matches a recognized field name
    case-insensitively, the set that is paginated is the filtered set
    reordered: a permutation of it, ascending by the natural ordering of
    the field, in which the records of equal sort key stand in the order
    they have in the filtered set. *)
Theorem sort_recognized_field_stable
  trades assetClass end_ maxPrice minPrice start tradeType page perPage
  (s : string) (f : Spec.sort_field) (fl : list Trade) :
  Spec.names_field s f = true ->
  filter_stage trades assetClass end_ maxPrice minPrice start tradeType
  = Ok fl ->
  exists loc,
    get_trades_body trades assetClass end_ maxPrice minPrice start tradeType
      page perPage (Some s) = Ok loc
    /\ Permutation fl (filtered_trades loc)
    /\ StronglySorted (fun a b => Spec.field_le f a b = true)
         (filtered_trades loc)
    /\ (forall x,
           filter (Spec.same_key f x) (filtered_trades loc)
           = filter (Spec.same_key f x) fl)
    /\ paginated_trades loc
       = slice (filtered_trades loc) ((page - 1) * perPage)
           ((page - 1) * perPage + perPage).
Proof.
  intros Hs Hfl.
  exists (paginate page perPage (sort_stage (Some s) fl)).
  split; [now apply get_trades_body_eq |].
  cbn [filtered_trades paginated_trades paginate].
  rewrite (sort_stage_field f s fl Hs).
  repeat split.
  - apply sorted_by_perm.
  - apply sorted_by_ascending.
  - intros x. apply sorted_by_stable.
Qed.

(** [trade_B] and [trade_C] share the counterparty and keep their order
    behind no one; the sort value is matched whatever its case. *)
Lemma sort_recognized_field_stable_witness :
  exists loc,
    get_trades_body store3 None None None None None None 1 10
      (Some "COUNTERPARTY") = Ok loc
    /\ Permutation store3 (filtered_trades loc)
    /\ StronglySorted (fun a b => Spec.field_le Spec.Counterparty a b = true)
         (filtered_trades loc)
    /\ (forall x,
           filter (Spec.same_key Spec.Counterparty x) (filtered_trades loc)
           = filter (Spec.same_key Spec.Counterparty x) store3)
    /\ paginated_trades loc
       = slice (filtered_trades loc) ((1 - 1) * 10) ((1 - 1) * 10 + 10).
Proof.
  apply (sort_recognized_field_stable store3 None None None None None None
           1 10 "COUNTERPARTY" Spec.Counterparty store3);
    reflexivity.
Defined.

Example sort_counterparty_run :
  get_trades store3 None None None None None None 1 10 (Some "COUNTERPARTY")
  = Ok [trade_B; trade_C; trade_A].
Proof. reflexivity. Qed.

(** C6, as stated: a sort value that matches no recognized field name
    would leave the order alone.  The value [" tradeid"], with a leading
    space, matches none of the names, and the page comes back sorted by
    [tradeId]. *)
Lemma padded_sort_value_sorts :
  Spec.recognized " tradeid" = false
  /\ get_trades store3 None None None None None None 1 10 (Some " tradeid")
     = Ok [trade_A; trade_B; trade_C]
  /\ get_trades store3 None None None None None None 1 10 None
     = Ok [trade_B; trade_A; trade_C].
Proof. repeat split; reflexivity. Qed.

(** C6, amended: a sort value that, with the surrounding white space
    stripped, matches no recognized field name case-insensitively gives
    the same local variables and the same response as no sort at all,
    on every page, and an exception exactly when no sort gives one. *)
Theorem unrecognized_sort_is_no_sort
  trades assetClass end_ maxPrice minPrice start tradeType page perPage
  (s : string) :
  Spec.recognized (Str.strip s) = false ->
  get_trades_body trades assetClass end_ maxPrice minPrice start tradeType
    page perPage (Some s)
  = get_trades_body trades assetClass end_ maxPrice minPrice start tradeType
      page perPage None
  /\ get_trades trades assetClass end_ maxPrice minPrice start tradeType
       page perPage (Some s)
     = get_trades trades assetClass end_ maxPrice minPrice start tradeType
         page perPage None.
Proof.
  intros Hs.
  assert (Hbody :
    get_trades_body trades assetClass end_ maxPrice minPrice start tradeType
      page perPage (Some s)
    = get_trades_body trades assetClass end_ maxPrice minPrice start
        tradeType page perPage None).
  { unfold get_trades_body.
    destruct (filter_stage trades assetClass end_ maxPrice minPrice start
                tradeType) as [fl | e]; [| reflexivity].
    cbn [bind]. now rewrite (sort_stage_unrecognized s fl Hs). }
  split; [exact Hbody |].
  unfold get_trades. now rewrite Hbody.
Qed.

Lemma unrecognized_sort_is_no_sort_witness :
  get_trades_body store3 None None None None None None 1 10 (Some "price")
  = get_trades_body store3 None None None None None None 1 10 None
  /\ get_trades store3 None None None None None None 1 10 (Some "price")
     = get_trades store3 None None None None None None 1 10 None.
Proof.
  apply (unrecognized_sort_is_no_sort store3 None None None None None None
           1 10 "price").
  reflexivity.
Defined.

(** C7: for [page >= 1] and [perPage] in [1, 100], the response is the
    window of the filtered and possibly sorted set that starts at offset
    [(page - 1) * perPage] and has at most [perPage] records; with the
    offset at or beyond the size of the filtered set the response is the
    empty page, returned and not raised. *)
Theorem page_is_contiguous_slice
  trades assetClass end_ maxPrice minPrice start tradeType page perPage sort
  (fl : list Trade) :
  1 <= page -> 1 <= perPage <= 100 ->
  filter_stage trades assetClass end_ maxPrice minPrice start tradeType
  = Ok fl ->
  let full := sort_stage sort fl in
  let pg :=
    firstn (Z.to_nat perPage) (skipn (Z.to_nat ((page - 1) * perPage)) full) in
  get_trades trades assetClass end_ maxPrice minPrice start tradeType
    page perPage sort = Ok pg
  /\ Z.of_nat (List.length pg) <= perPage
  /\ (Z.of_nat (List.length fl) <= (page - 1) * perPage -> pg = []).
Proof.
  intros Hp Hn Hfl full pg.
  split; [| split].
  - now apply get_trades_page.
  - pose proof (page_of_length full page perPage) as Hlen.
    unfold Spec.page_of in Hlen. fold pg in Hlen. lia.
  - intros Hout. apply (page_of_beyond full page perPage).
    unfold full. now rewrite sort_stage_length.
Qed.

Lemma page_is_contiguous_slice_witness :
  get_trades store3 None None None None None None 2 2 (Some "tradeId")
  = Ok [trade_C]
  /\ Z.of_nat (List.length [trade_C]) <= 2
  /\ (Z.of_nat (List.length store3) <= (2 - 1) * 2 -> [trade_C] = []).
Proof.
  apply (page_is_contiguous_slice store3 None None None None None None
           2 2 (Some "tradeId") store3); [lia | lia | reflexivity].
Defined.

Example page_beyond_the_end :
  get_trades store3 None None None None None None 3 2 (Some "tradeId")
  = Ok [].
Proof. reflexivity. Qed.

(** C8: with the filters, the sort and [perPage] in [1, 100] fixed, the
    pages 1, 2, ..., n are all returned and, as soon as they reach the
    end of the filtered and possibly sorted set, their concatenation is
    that set, each record once and in order; and a page whose offset is
    at or beyond the end is empty. *)
Theorem pages_reconstruct_filtered_set
  trades assetClass end_ maxPrice minPrice start tradeType perPage sort
  (fl : list Trade) :
  1 <= perPage <= 100 ->
  filter_stage trades assetClass end_ maxPrice minPrice start tradeType
  = Ok fl ->
  let full := sort_stage sort fl in
  let request page :=
    get_trades trades assetClass end_ maxPrice minPrice start tradeType
      page perPage sort in
  (forall n : nat,
      Z.of_nat (List.length full) <= Z.of_nat n * perPage ->
      exists pages,
        Forall2 (fun p pg => request (Z.of_nat p) = Ok pg) (seq 1 n) pages
        /\ List.concat pages = full)
  /\ (forall page,
         1 <= page ->
         Z.of_nat (List.length full) <= (page - 1) * perPage ->
         request page = Ok []).
Proof.
  intros Hn Hfl full request. split.
  - intros n Hreach.
    exists (map (fun p => Spec.page_of full (Z.of_nat p) perPage) (seq 1 n)).
    split.
    + apply Forall2_map_fun. intros p Hp. apply in_seq in Hp.
      unfold request. apply get_trades_page; [exact Hfl | lia | lia].
    + rewrite concat_pages by lia. apply firstn_all2. nia.
  - intros page Hp Hout. unfold request.
    rewrite (get_trades_page _ _ _ _ _ _ _ page perPage sort _ Hfl)
      by lia.
    f_equal. now apply page_of_beyond.
Qed.

Lemma pages_reconstruct_filtered_set_witness :
  (forall n : nat,
      Z.of_nat (List.length [trade_A; trade_B; trade_C]) <= Z.of_nat n * 2 ->
      exists pages,
        Forall2
          (fun p pg =>
             get_trades store3 None None None None None None (Z.of_nat p) 2
               (Some "tradeId") = Ok pg)
          (seq 1 n) pages
        /\ List.concat pages = [trade_A; trade_B; trade_C])
  /\ (forall page,
         1 <= page ->
         Z.of_nat (List.length [trade_A; trade_B; trade_C]) <= (page - 1) * 2 ->
         get_trades store3 None None None None None None page 2
           (Some "tradeId") = Ok []).
Proof.
  apply (pages_reconstruct_filtered_set store3 None None None None None None
           2 (Some "tradeId") store3); [lia | reflexivity].
Defined.

Example two_pages_run :
  get_trades store3 None None None None None None 1 2 (Some "tradeId")
  = Ok [trade_A; trade_B]
  /\ get_trades store3 None None None None None None 2 2 (Some "tradeId")
     = Ok [trade_C]
  /\ get_trades store3 None None None None None None 3 2 (Some "tradeId")
     = Ok [].
Proof. repeat split; reflexivity. Qed.

(** C10: an empty [assetClass], an empty [tradeType] and an empty [sort]
    each give the local variables and the response of the request
    without that parameter: the stage is skipped, and no record is
    compared with the empty string. *)
Theorem empty_string_is_absent
  trades assetClass end_ maxPrice minPrice start tradeType page perPage sort :
  get_trades_body trades (Some "") end_ maxPrice minPrice start tradeType
    page perPage sort
  = get_trades_body trades None end_ maxPrice minPrice start tradeType
      page perPage sort
  /\ get_trades_body trades assetClass end_ maxPrice minPrice start (Some "")
       page perPage sort
     = get_trades_body trades assetClass end_ maxPrice minPrice start None
         page perPage sort
  /\ get_trades_body trades assetClass end_ maxPrice minPrice start tradeType
       page perPage (Some "")
     = get_trades_body trades assetClass end_ maxPrice minPrice start
         tradeType page perPage None
  /\ get_trades trades (Some "") end_ maxPrice minPrice start tradeType
       page perPage sort
     = get_trades trades None end_ maxPrice minPrice start tradeType
         page perPage sort
  /\ get_trades trades assetClass end_ maxPrice minPrice start (Some "")
       page perPage sort
     = get_trades trades assetClass end_ maxPrice minPrice start None
         page perPage sort
  /\ get_trades trades assetClass end_ maxPrice minPrice start tradeType
       page perPage (Some "")
     = get_trades trades assetClass end_ maxPrice minPrice start tradeType
         page perPage None
  /\ (forall l, filter_assetClass (Some "") l = Ok l)
  /\ (forall l, filter_tradeType (Some "") l = Ok l)
  /\ (forall l, sort_stage (Some "") l = l).
Proof. repeat split; reflexivity. Qed.

(** The test is the truth value of the string, not its presence: a
    record of asset class "Bond" passes the empty [assetClass], and
    fails one that is a space. *)
Example empty_assetClass_run :
  get_trades [trade_B] (Some "") None None None None None 1 10 None
  = Ok [trade_B]
  /\ get_trades [trade_B] (Some " ") None None None None None 1 10 None
     = Ok [].
Proof. split; reflexivity. Qed.

(* ================================================================== *)
(** * The store is never changed *)

Module RefsFacts.

Lemma extends_refl (h : Refs.heap) : extends h h.
Proof. exists []. now rewrite app_nil_r. Qed.

Lemma extends_trans (h1 h2 h3 : Refs.heap) :
  extends h1 h2 -> extends h2 h3 -> extends h1 h3.
Proof.
  intros [e1 ->] [e2 ->]. exists (e1 ++ e2)%list. now rewrite app_assoc.
Qed.

Lemma extends_deref (h h' : Refs.heap) (r : Refs.ref) :
  extends h h' -> (r < List.length h)%nat -> Refs.deref h' r = Refs.deref h r.
Proof. intros [ext ->] Hr. unfold Refs.deref. now apply app_nth1. Qed.

Lemma extends_length (h h' : Refs.heap) :
  extends h h' -> (List.length h <= List.length h')%nat.
Proof. intros [ext ->]. rewrite length_app. lia. Qed.

Lemma refines_ret : refines Refs.ret (fun l => Ok l).
Proof.
  intros h r Hr. simpl. split; [apply extends_refl | now split].
Qed.

Lemma refines_new (f : list Trade -> result (list Trade)) :
  refines (fun r => Refs.bindc (Refs.read r) (fun l => Refs.new_list (f l))) f.
Proof.
  intros h r Hr. unfold Refs.bindc, Refs.read, Refs.new_list.
  destruct (f (Refs.deref h r)) as [l | e].
  - split; [now exists [l] |]. split.
    + rewrite length_app. simpl. lia.
    + unfold Refs.deref. now rewrite nth_middle.
  - split; [apply extends_refl | reflexivity].
Qed.

Lemma refines_bind (st1 st2 : Refs.ref -> Refs.comp Refs.ref)
  (ps1 ps2 : list Trade -> result (list Trade)) :
  refines st1 ps1 -> refines st2 ps2 ->
  refines (fun r => Refs.bindc (st1 r) st2) (fun l => bind (ps1 l) ps2).
Proof.
  intros H1 H2 h r Hr. unfold Refs.bindc.
  specialize (H1 h r Hr).
  destruct (st1 r h) as [[r1 | e] h1].
  - destruct H1 as (Hext1 & Hr1 & Hps1). rewrite Hps1. cbn [bind].
    specialize (H2 h1 r1 Hr1).
    destruct (st2 r1 h1) as [[r2 | e] h2].
    + destruct H2 as (Hext2 & Hr2 & Hps2).
      split; [eapply extends_trans; eauto | now split].
    + destruct H2 as (Hext2 & Hps2).
      split; [eapply extends_trans; eauto | assumption].
  - destruct H1 as (Hext1 & Hps1). now rewrite Hps1.
Qed.

Section Stages.
Variable assetClass : option string.
Variable end_ : option datetime.
Variable maxPrice minPrice : option float.
Variable start : option datetime.
Variable tradeType : option string.
Variable page perPage : Z.
Variable sort : option string.

Lemma refines_filter_assetClass :
  refines (Refs.filter_assetClass assetClass)
    (filter_assetClass assetClass).
Proof.
  unfold Refs.filter_assetClass, filter_assetClass.
  destruct assetClass as [a |]; [destruct (Str.truthy a) |];
    first [apply refines_new | apply refines_ret].
Qed.

Lemma refines_filter_end :
  refines (Refs.filter_end end_) (filter_end end_).
Proof.
  unfold Refs.filter_end, filter_end.
  destruct end_; first [apply refines_new | apply refines_ret].
Qed.

Lemma refines_filter_maxPrice :
  refines (Refs.filter_maxPrice maxPrice) (filter_maxPrice maxPrice).
Proof.
  unfold Refs.filter_maxPrice, filter_maxPrice.
  destruct maxPrice; first [apply refines_new | apply refines_ret].
Qed.

Lemma refines_filter_minPrice :
  refines (Refs.filter_minPrice minPrice) (filter_minPrice minPrice).
Proof.
  unfold Refs.filter_minPrice, filter_minPrice.
  destruct minPrice; first [apply refines_new | apply refines_ret].
Qed.

Lemma refines_filter_start :
  refines (Refs.filter_start start) (filter_start start).
Proof.
  unfold Refs.filter_start, filter_start.
  destruct start; first [apply refines_new | apply refines_ret].
Qed.

Lemma refines_filter_tradeType :
  refines (Refs.filter_tradeType tradeType) (filter_tradeType tradeType).
Proof.
  unfold Refs.filter_tradeType, filter_tradeType.
  destruct tradeType as [a |]; [destruct (Str.truthy a) |];
    first [apply refines_new | apply refines_ret].
Qed.

Lemma refines_sort_stage :
  refines (Refs.sort_stage sort) (fun l => Ok (sort_stage sort l)).
Proof.
  unfold Refs.sort_stage, sort_stage.
  destruct sort as [s |]; [| apply refines_ret].
  destruct (Str.truthy s); [| apply refines_ret].
  cbv zeta.
  repeat match goal with
         | |- context [if ?b then _ else _] => destruct b
         end;
    solve [apply refines_ret
          | apply (refines_new (fun l => Ok (sorted _ l)))].
Qed.

Lemma refines_paginate :
  refines (Refs.paginate page perPage)
    (fun l => Ok (paginated_trades (paginate page perPage l))).
Proof.
  intros h r Hr.
  apply (refines_new
           (fun l => Ok (slice l ((page - 1) * perPage)
                           ((page - 1) * perPage + perPage))) h r Hr).
Qed.

(** The response of [get_trades] as one chain of stages. *)
Lemma get_trades_chain (trades : list Trade) :
  get_trades trades assetClass end_ maxPrice minPrice start tradeType
    page perPage sort
  = (l <- filter_assetClass assetClass trades ;;
     l <- filter_end end_ l ;;
     l <- filter_maxPrice maxPrice l ;;
     l <- filter_minPrice minPrice l ;;
     l <- filter_start start l ;;
     l <- filter_tradeType tradeType l ;;
     l <- Ok (sort_stage sort l) ;;
     Ok (paginated_trades (paginate page perPage l)))%result.
Proof.
  unfold get_trades, get_trades_body, filter_stage, fmap.
  repeat match goal with
         | |- context [bind ?m _] =>
             lazymatch m with
             | bind _ _ => fail
             | Ok _ => fail
             | _ => destruct m; cbn [bind]; [| reflexivity]
             end
         end.
  reflexivity.
Qed.

(** [get_trades] on references returns the reference of the page
    that [get_trades] on lists computes from the store, raises when
    it raises, and only adds objects to the heap. *)
Lemma get_trades_refines (trades : Refs.ref) (h : Refs.heap) :
  (trades < List.length h)%nat ->
  let store := Refs.deref h trades in
  let pure :=
    get_trades store assetClass end_ maxPrice minPrice start tradeType
      page perPage sort in
  match Refs.get_trades trades assetClass end_ maxPrice minPrice start
          tradeType page perPage sort h with
  | (Ok r, h') =>
      extends h h' /\ (r < List.length h')%nat
      /\ pure = Ok (Refs.deref h' r)
  | (Raise e, h') => extends h h' /\ pure = Raise e
  end.
Proof.
  intros Hr store pure. unfold pure, store.
  rewrite get_trades_chain.
  apply (refines_bind _ _ _ _ refines_filter_assetClass
           (refines_bind _ _ _ _ refines_filter_end
              (refines_bind _ _ _ _ refines_filter_maxPrice
                 (refines_bind _ _ _ _ refines_filter_minPrice
                    (refines_bind _ _ _ _ refines_filter_start
                       (refines_bind _ _ _ _ refines_filter_tradeType
                          (refines_bind _ _ _ _ refines_sort_stage
                             refines_paginate)))))) h trades Hr).
Qed.
End Stages.

Lemma handle_refines (trades : Refs.ref) (rq : Refs.request) (h : Refs.heap) :
  (trades < List.length h)%nat ->
  extends h (snd (Refs.handle trades rq h))
  /\ fst (Refs.handle trades rq h) = answer (Refs.deref h trades) rq.
Proof.
  intros Hr. destruct rq as [ac e mx mn s ty p n so].
  unfold Refs.handle, Refs.bindc.
  pose proof (get_trades_refines ac e mx mn s ty p n so trades h Hr) as H.
  cbv zeta in H.
  destruct (Refs.get_trades trades ac e mx mn s ty p n so h)
    as [[r | ex] h'].
  - destruct H as (Hext & _ & Hpure). unfold answer.
    rewrite Hpure. now split.
  - destruct H as (Hext & Hpure). unfold answer.
    rewrite Hpure. now split.
Qed.

(** Whatever the requests, the heap after them has every object it
    had before them, the store among them, and the answers are those
    computed from the store as it was at the start. *)
Lemma serve_refines
  (trades : Refs.ref) (rqs : list Refs.request) (h : Refs.heap) :
  (trades < List.length h)%nat ->
  extends h (snd (Refs.serve trades rqs h))
  /\ fst (Refs.serve trades rqs h) = map (answer (Refs.deref h trades)) rqs.
Proof.
  revert h. induction rqs as [| rq rqs IH]; intros h Hr; simpl.
  - split; [apply extends_refl | reflexivity].
  - destruct (handle_refines trades rq h Hr) as [Hext Hans].
    destruct (Refs.handle trades rq h) as [a h'] eqn:Hh. simpl in Hext, Hans.
    assert (Hr' : (trades < List.length h')%nat).
    { apply extends_length in Hext. lia. }
    destruct (IH h' Hr') as [Hext' Hans'].
    destruct (Refs.serve trades rqs h') as [answers h''] eqn:Hs.
    simpl in *. split; [eapply extends_trans; eauto |].
    rewrite Hans, Hans'.
    now rewrite (extends_deref h h' trades Hext Hr).
Qed.

Lemma serve_preserves_store
  (trades : Refs.ref) (rqs : list Refs.request) (h : Refs.heap) :
  (trades < List.length h)%nat ->
  Refs.deref (snd (Refs.serve trades rqs h)) trades = Refs.deref h trades.
Proof.
  intros Hr. apply extends_deref; [| exact Hr].
  now apply serve_refines.
Qed.

End RefsFacts.

(* ================================================================== *)
(** * Where the pipeline returns and where it raises *)

(** With date bounds that are naive or absent, every request returns a
    page. *)
Lemma get_trades_returns
  trades assetClass end_ maxPrice minPrice start tradeType page perPage sort :
  Spec.naive_or_absent start -> Spec.naive_or_absent end_ ->
  exists pg,
    get_trades trades assetClass end_ maxPrice minPrice start tradeType
      page perPage sort = Ok pg.
Proof.
  intros Hs He. eexists.
  apply get_trades_eq. now apply filter_stage_naive.
Qed.

(** An aware [end] meets the first record that is left after the
    [assetClass] filter, and the comparison raises. *)
Lemma aware_end_raises
  (t : Trade) (trades : list Trade) (w o : Z)
  maxPrice minPrice start tradeType page perPage sort :
  get_trades (t :: trades) None (Some (Aware w o)) maxPrice minPrice start
    tradeType page perPage sort
  = Raise TypeError.
Proof. reflexivity. Qed.

(** So does an aware [start] when no earlier filter is supplied. *)
Lemma aware_start_raises
  (t : Trade) (trades : list Trade) (w o : Z) tradeType page perPage sort :
  get_trades (t :: trades) None None None None (Some (Aware w o)) tradeType
    page perPage sort
  = Raise TypeError.
Proof. reflexivity. Qed.

(** With no filter and no sort the local variable is still the store
    itself, and the page is a new object next to it. *)
Example alias_run :
  Refs.get_trades 0%nat None None None None None None 1 2 None [store3]
  = (Ok 1%nat, [store3; [trade_B; trade_A]]).
Proof. reflexivity. Qed.

(** C9: a request with a timestamp that carries a UTC offset, as
    [end=0001-01-01T00:00:00Z] gives one, on a store of one record.  The
    claim has the pipeline return on every well-typed input; the
    comparison of the stored naive timestamp with the aware bound raises
    TypeError, for [end] and for [start] alike, and the request has no
    page.  The store is as it was. *)
Theorem aware_bound_raises_TypeError :
  get_trades [trade_B] None (Some (Aware 0 0)) None None None None 1 10 None
  = Raise TypeError
  /\ get_trades [trade_B] None None None None (Some (Aware 0 0)) None 1 10
       None
     = Raise TypeError
  /\ Refs.serve 0%nat
       [Refs.GetTrades None (Some (Aware 0 0)) None None None None 1 10 None]
       [[trade_B]]
     = ([Raise TypeError], [[trade_B]]).
Proof. repeat split; reflexivity. Qed.

(* ================================================================== *)
(** * More on the lookup *)

Lemma get_trade_cases (trades : list Trade) (id : string) :
  (get_trade trades id = VDict [("error", "Trade not found")]
   /\ forall u, In u trades -> trade_id u <> id)
  \/ (exists before t after,
         trades = (before ++ t :: after)%list
         /\ (forall u, In u before -> trade_id u <> id)
         /\ trade_id t = id
         /\ get_trade trades id = VTrade t).
Proof.
  induction trades as [| u trades IH].
  - left. split; [reflexivity | intros u []].
  - simpl. destruct (String.eqb_spec (trade_id u) id) as [Heq | Hne].
    + right. exists [], u, trades. repeat split; auto;
        try (intros v []).
    + destruct IH as [[Hd Habs] | (before & t & after & -> & Hb & Ht & Hg)].
      * left. split; [exact Hd |]. intros v [<- | Hv]; auto.
      * right. exists (u :: before), t, after. repeat split; auto;
          try (intros v [<- | Hv]; auto).
Qed.

(** X1: the lookup answers with the dict [{"error": "Trade not found"}]
    exactly when no record of the store has the id, and with no other
    dict ever. *)
Theorem get_trade_error_iff_absent (trades : list Trade) (id : string) :
  (get_trade trades id = VDict [("error", "Trade not found")]
   <-> forall u, In u trades -> trade_id u <> id)
  /\ (forall d, get_trade trades id = VDict d ->
                d = [("error", "Trade not found")]).
Proof.
  destruct (get_trade_cases trades id)
    as [[Hd Habs] | (before & t & after & -> & Hb & Ht & Hg)].
  - split; [tauto |]. intros d Hd'. congruence.
  - split.
    + split; [congruence |].
      intros Habs. exfalso. apply (Habs t); [| exact Ht].
      apply in_or_app. right. now left.
    + intros d Hd. congruence.
Qed.

(** X2: a record that the lookup returns is a record of the store, its id
    is the requested one character for character, and no record before
    it in the store has that id. *)
Theorem get_trade_returns_first_match
  (trades : list Trade) (id : string) (t : Trade) :
  get_trade trades id = VTrade t ->
  exists before after,
    trades = (before ++ t :: after)%list
    /\ (forall u, In u before -> trade_id u <> id)
    /\ trade_id t = id.
Proof.
  intros Hg.
  destruct (get_trade_cases trades id)
    as [[Hd _] | (before & t' & after & Heq & Hb & Ht & Hg')].
  - congruence.
  - assert (t' = t) by congruence. subst t'.
    exists before, after. auto.
Qed.

Lemma get_trade_returns_first_match_witness :
  exists before after,
    store3 = (before ++ trade_A :: after)%list
    /\ (forall u, In u before -> trade_id u <> "A")
    /\ trade_id trade_A = "A".
Proof.
  apply (get_trade_returns_first_match store3 "A" trade_A).
  reflexivity.
Defined.

Lemma NoDup_map_eq {A B} (f : A -> B) (l : list A) (a b : A) :
  NoDup (map f l) -> In a l -> In b l -> f a = f b -> a = b.
Proof.
  induction l as [| x l IH]; intros Hnd Ha Hb Hf; [destruct Ha |].
  simpl in Hnd. inversion Hnd as [| ? ? Hx Hnd']; subst.
  destruct Ha as [<- | Ha], Hb as [<- | Hb]; auto.
  - exfalso. apply Hx. rewrite Hf. now apply in_map.
  - exfalso. apply Hx. rewrite <- Hf. now apply in_map.
Qed.

(** X3: in a store without two records of the same id, the lookup of the id
    of any record of the store returns that record. *)
Theorem get_trade_of_stored_id (trades : list Trade) (t : Trade) :
  NoDup (map trade_id trades) ->
  In t trades ->
  get_trade trades (trade_id t) = VTrade t.
Proof.
  intros Hnd Hin.
  destruct (get_trade_cases trades (trade_id t))
    as [[_ Habs] | (before & t' & after & Heq & _ & Hid & Hg)].
  - exfalso. now apply (Habs t Hin).
  - rewrite Hg. f_equal.
    apply (NoDup_map_eq trade_id trades t' t Hnd); auto.
    rewrite Heq. apply in_or_app. right. now left.
Qed.

Lemma get_trade_of_stored_id_witness :
  get_trade store3 (trade_id trade_C) = VTrade trade_C.
Proof.
  apply (get_trade_of_stored_id store3 trade_C).
  - repeat constructor; simpl; intuition discriminate.
  - simpl. auto.
Defined.

(** X4: the lookup in two stores put end to end is the lookup in the first
    and, when that finds nothing, the lookup in the second: of two
    records of one id the later one is never returned. *)
Theorem get_trade_app (s1 s2 : list Trade) (id : string) :
  get_trade (s1 ++ s2) id
  = match get_trade s1 id with
    | VTrade t => VTrade t
    | VDict _ => get_trade s2 id
    end.
Proof.
  induction s1 as [| u s1 IH]; simpl; [reflexivity |].
  destruct (String.eqb (trade_id u) id); [reflexivity | exact IH].
Qed.

(* ================================================================== *)
(** * More on the filters *)

Lemma filter_stage_nil assetClass end_ maxPrice minPrice start tradeType :
  filter_stage [] assetClass end_ maxPrice minPrice start tradeType = Ok [].
Proof.
  unfold filter_stage, filter_assetClass, filter_end, filter_maxPrice,
    filter_minPrice, filter_start, filter_tradeType.
  destruct assetClass as [a |]; [destruct (Str.truthy a) |];
    destruct end_, maxPrice, minPrice, start;
    (destruct tradeType as [ty |]; [destruct (Str.truthy ty) |]);
    reflexivity.
Qed.

Lemma sort_stage_nil (sort : option string) : sort_stage sort [] = [].
Proof. apply length_zero_iff_nil. now rewrite sort_stage_length. Qed.

(** X5: on an empty store every request returns the empty page, whatever
    its parameters: aware date bounds meet no record to be compared
    with, and any page and page size slice the empty list. *)
Theorem get_trades_empty_store
  assetClass end_ maxPrice minPrice start tradeType page perPage sort :
  get_trades [] assetClass end_ maxPrice minPrice start tradeType
    page perPage sort = Ok [].
Proof.
  rewrite (get_trades_eq _ _ _ _ _ _ _ page perPage sort _
             (filter_stage_nil assetClass end_ maxPrice minPrice start
                tradeType)).
  now rewrite sort_stage_nil, slice_nil.
Qed.

Lemma comprehension_raise {A} (cond : A -> result bool) (e : exn)
  (l : list A) :
  (forall x, cond x = Raise e) -> l <> [] -> comprehension cond l = Raise e.
Proof.
  intros Hc Hl. destruct l as [| x l]; [contradiction |].
  simpl. now rewrite Hc.
Qed.

Lemma aware_cases (o : option datetime) :
  (aware o = true /\ exists w off, o = Some (Aware w off))
  \/ (aware o = false /\ Spec.naive_or_absent o).
Proof.
  destruct o as [[w | w off] |]; simpl; eauto.
Qed.

Lemma filter_nil_dec {A} (l : list A) : l = [] \/ l <> [].
Proof. destruct l; [now left | right; discriminate]. Qed.

Section Raises.
Variable trades : list Trade.
Variable assetClass : option string.
Variable end_ : option datetime.
Variable maxPrice minPrice : option float.
Variable start : option datetime.
Variable tradeType : option string.

Lemma end_ok_aware (w off : Z) (t : Trade) :
  Spec.end_ok (Some (Aware w off)) t = false.
Proof. reflexivity. Qed.

(** The filter stage raises exactly when an aware bound meets a record:
    an aware [end] and a record that passes the [assetClass] filter, or
    an aware [start] and a record that passes the filters before it. *)
Lemma filter_stage_raises_iff :
  filter_stage trades assetClass end_ maxPrice minPrice start tradeType
  = Raise TypeError
  <-> (aware end_ = true
       /\ filter (Spec.asset_ok assetClass) trades <> [])
      \/ (aware start = true
          /\ filter (fun t => Spec.asset_ok assetClass t
                              && Spec.end_ok end_ t
                              && Spec.max_ok maxPrice t
                              && Spec.min_ok minPrice t) trades <> []).
Proof.
  unfold filter_stage.
  rewrite filter_assetClass_eq, bind_ret.
  set (l1 := filter (Spec.asset_ok assetClass) trades).
  assert (Hl4 : filter (fun t => Spec.asset_ok assetClass t
                                 && Spec.end_ok end_ t
                                 && Spec.max_ok maxPrice t
                                 && Spec.min_ok minPrice t) trades
                = filter (Spec.min_ok minPrice)
                    (filter (Spec.max_ok maxPrice)
                       (filter (Spec.end_ok end_) l1))).
  { unfold l1. rewrite !filter_filter. apply filter_ext. intros t.
    cbv beta. now rewrite !andb_assoc. }
  rewrite Hl4. clear Hl4.
  destruct (aware_cases end_) as [[Ha (w & off & He)] | [Ha Hn]].
  - (* aware end *)
    rewrite Ha. subst end_. unfold filter_end.
    destruct (filter_nil_dec l1) as [Hnil | Hne].
    + rewrite Hnil. simpl.
      rewrite filter_maxPrice_eq, bind_ret, filter_minPrice_eq, bind_ret.
      simpl.
      assert (Hs : filter_start start [] = Ok []).
      { unfold filter_start. now destruct start. }
      rewrite Hs, bind_ret, filter_tradeType_eq. simpl.
      split; [discriminate |].
      intros [[_ H] | [_ H]]; now elim H.
    + rewrite (comprehension_raise _ TypeError l1); auto.
      simpl. split; auto.
  - (* end naive or absent *)
    rewrite Ha. rewrite (filter_end_naive _ _ Hn), bind_ret.
    rewrite filter_maxPrice_eq, bind_ret, filter_minPrice_eq, bind_ret.
    set (l4 := filter (Spec.min_ok minPrice) _).
    destruct (aware_cases start) as [[Hs (w & off & Hst)] | [Hs Hsn]].
    + rewrite Hs. subst start. unfold filter_start.
      destruct (filter_nil_dec l4) as [Hnil | Hne].
      * rewrite Hnil. simpl. rewrite filter_tradeType_eq. simpl.
        split; [discriminate |].
        intros [[H _] | [_ H]]; [discriminate | now elim H].
      * rewrite (comprehension_raise _ TypeError l4); auto.
        simpl. split; auto.
    + rewrite Hs. rewrite (filter_start_naive _ _ Hsn), bind_ret.
      rewrite filter_tradeType_eq.
      split; [discriminate |].
      intros [[H _] | [H _]]; discriminate.
Qed.
End Raises.

(** X6: a request raises exactly when an aware date bound meets a record:
    an aware [end] and a record that passes the [assetClass] filter, or
    an aware [start] and a record that passes the [assetClass], [end],
    [maxPrice] and [minPrice] filters; the exception is TypeError and
    neither the page nor the sort has a part in it.  In every other
    case the request returns a page. *)
Theorem get_trades_raises_iff
  trades assetClass end_ maxPrice minPrice start tradeType page perPage sort :
  let meets :=
    (aware end_ = true
     /\ filter (Spec.asset_ok assetClass) trades <> [])
    \/ (aware start = true
        /\ filter (fun t => Spec.asset_ok assetClass t
                            && Spec.end_ok end_ t
                            && Spec.max_ok maxPrice t
                            && Spec.min_ok minPrice t) trades <> []) in
  (get_trades trades assetClass end_ maxPrice minPrice start tradeType
     page perPage sort = Raise TypeError <-> meets)
  /\ ((exists pg,
          get_trades trades assetClass end_ maxPrice minPrice start tradeType
            page perPage sort = Ok pg) <-> ~ meets).
Proof.
  intros meets.
  pose proof (filter_stage_raises_iff trades assetClass end_ maxPrice
                minPrice start tradeType) as Hiff.
  fold meets in Hiff.
  destruct (filter_stage trades assetClass end_ maxPrice minPrice start
              tradeType) as [fl | []] eqn:Hfl.
  - rewrite (get_trades_eq _ _ _ _ _ _ _ page perPage sort _ Hfl).
    split.
    + split; [discriminate |]. intros Hm. apply Hiff in Hm. discriminate.
    + split; [| eauto]. intros _ Hm. apply Hiff in Hm. discriminate.
  - rewrite (get_trades_raise _ _ _ _ _ _ _ page perPage sort _ Hfl).
    split.
    + split; [intros _; now apply Hiff | reflexivity].
    + split.
      * intros [pg Hpg]. discriminate.
      * intros Hn. exfalso. apply Hn. now apply Hiff.
Qed.

Lemma truthy_lower (s : string) : Str.truthy (Str.lower s) = Str.truthy s.
Proof. destruct s; reflexivity. Qed.

Lemma truthy_of_lower_eq (a b : string) :
  Str.lower a = Str.lower b -> Str.truthy a = Str.truthy b.
Proof.
  intros Hab. now rewrite <- (truthy_lower a), <- (truthy_lower b), Hab.
Qed.

(** X7: the [assetClass] and [tradeType] filters see their value only up to
    case: two requests whose values have the same lower case get the
    same local variables and the same response. *)
Theorem filters_ignore_case
  trades (a a' : string) end_ maxPrice minPrice start (ty ty' : string)
  page perPage sort :
  Str.lower a = Str.lower a' ->
  Str.lower ty = Str.lower ty' ->
  get_trades_body trades (Some a) end_ maxPrice minPrice start (Some ty)
    page perPage sort
  = get_trades_body trades (Some a') end_ maxPrice minPrice start (Some ty')
      page perPage sort
  /\ get_trades trades (Some a) end_ maxPrice minPrice start (Some ty)
       page perPage sort
     = get_trades trades (Some a') end_ maxPrice minPrice start (Some ty')
         page perPage sort.
Proof.
  intros Ha Hty.
  assert (Hbody :
    get_trades_body trades (Some a) end_ maxPrice minPrice start (Some ty)
      page perPage sort
    = get_trades_body trades (Some a') end_ maxPrice minPrice start
        (Some ty') page perPage sort).
  { unfold get_trades_body, filter_stage, filter_assetClass,
      filter_tradeType.
    now rewrite (truthy_of_lower_eq a a' Ha), (truthy_of_lower_eq ty ty' Hty),
      Ha, Hty. }
  split; [exact Hbody |]. unfold get_trades. now rewrite Hbody.
Qed.

Lemma filters_ignore_case_witness :
  get_trades_body store3 (Some "BOND") None None None None (Some "Buy")
    1 10 None
  = get_trades_body store3 (Some "bond") None None None None (Some "BUY")
      1 10 None
  /\ get_trades store3 (Some "BOND") None None None None (Some "Buy")
       1 10 None
     = get_trades store3 (Some "bond") None None None None (Some "BUY")
         1 10 None.
Proof.
  apply (filters_ignore_case store3 "BOND" "bond" None None None None
           "Buy" "BUY" 1 10 None); reflexivity.
Defined.

(** X8: a naive date range whose [end] is before its [start] is no error:
    every such request returns the empty page. *)
Theorem inverted_date_range_is_empty
  trades assetClass (e s : Z) maxPrice minPrice tradeType page perPage sort :
  e < s ->
  get_trades trades assetClass (Some (Naive e)) maxPrice minPrice
    (Some (Naive s)) tradeType page perPage sort = Ok [].
Proof.
  intros Hes.
  assert (Hfl :
    filter_stage trades assetClass (Some (Naive e)) maxPrice minPrice
      (Some (Naive s)) tradeType = Ok []).
  { rewrite filter_stage_naive by exact I. f_equal.
    induction trades as [| t l IH]; [reflexivity |].
    simpl. rewrite IH.
    unfold Spec.satisfies_active, Spec.date_ok, Spec.end_ok, Spec.start_ok,
      Spec.supplied, Spec.dt_leb. simpl.
    destruct (Z.leb_spec (trade_date_time t) e) as [Hle | Hgt];
      destruct (Z.leb_spec s (trade_date_time t)) as [Hle' | Hgt'];
      try lia;
      now rewrite ?andb_false_r, ?andb_false_l. }
  rewrite (get_trades_eq _ _ _ _ _ _ _ page perPage sort _ Hfl).
  now rewrite sort_stage_nil, slice_nil.
Qed.

Lemma inverted_date_range_is_empty_witness :
  get_trades store3 None (Some (Naive 1000)) None None (Some (Naive 2000))
    None 1 10 None = Ok [].
Proof.
  apply (inverted_date_range_is_empty store3 None 1000 2000 None None None
           1 10 None).
  lia.
Defined.

(** X9: with naive or absent date bounds, filtering composes: the filters
    of a second request applied to the filtered set of a first one keep
    the records on which the filters of both hold, in whichever order
    the two are applied, and the filters of a request applied to its
    own filtered set change nothing. *)
Theorem filters_compose
  trades assetClass end_ maxPrice minPrice start tradeType
  assetClass' end_' maxPrice' minPrice' start' tradeType' :
  Spec.naive_or_absent start -> Spec.naive_or_absent end_ ->
  Spec.naive_or_absent start' -> Spec.naive_or_absent end_' ->
  let keep :=
    Spec.satisfies_active assetClass end_ maxPrice minPrice start tradeType in
  let keep' :=
    Spec.satisfies_active assetClass' end_' maxPrice' minPrice' start'
      tradeType' in
  exists fl fl',
    filter_stage trades assetClass end_ maxPrice minPrice start tradeType
    = Ok fl
    /\ filter_stage trades assetClass' end_' maxPrice' minPrice' start'
         tradeType' = Ok fl'
    /\ filter_stage fl assetClass' end_' maxPrice' minPrice' start'
         tradeType'
       = Ok (filter (fun t => keep t && keep' t) trades)
    /\ filter_stage fl' assetClass end_ maxPrice minPrice start tradeType
       = Ok (filter (fun t => keep t && keep' t) trades)
    /\ filter_stage fl assetClass end_ maxPrice minPrice start tradeType
       = Ok fl.
Proof.
  intros Hs He Hs' He' keep keep'.
  exists (filter keep trades), (filter keep' trades).
  rewrite !filter_stage_naive by assumption.
  fold keep keep'. rewrite !filter_filter.
  repeat split; f_equal; apply filter_ext; intros t.
  - apply andb_comm.
  - now destruct (keep t).
Qed.

Lemma filters_compose_witness :
  exists fl fl',
    filter_stage store3 None (Some (Naive 2500)) None None None None = Ok fl
    /\ filter_stage store3 None None None None None (Some "buy") = Ok fl'
    /\ filter_stage fl None None None None None (Some "buy")
       = Ok [trade_B]
    /\ filter_stage fl' None (Some (Naive 2500)) None None None None
       = Ok [trade_B]
    /\ filter_stage fl None (Some (Naive 2500)) None None None None = Ok fl.
Proof.
  apply (filters_compose store3 None (Some (Naive 2500)) None None None None
           None None None None None (Some "buy")); exact I.
Defined.

(* ================================================================== *)
(** * More on the sort *)

Lemma lower_strip_empty_no_field (s : string) :
  Str.lower (Str.strip s) = "" ->
  forall l : list Trade, sort_stage (Some s) l = l.
Proof.
  intros Hs l. unfold sort_stage. rewrite Hs.
  now destruct (Str.truthy s).
Qed.

Lemma sort_stage_normalized (s s' : string) (l : list Trade) :
  Str.lower (Str.strip s) = Str.lower (Str.strip s') ->
  sort_stage (Some s) l = sort_stage (Some s') l.
Proof.
  intros Hn.
  destruct (Str.truthy s) eqn:Hs, (Str.truthy s') eqn:Hs'.
  - unfold sort_stage. now rewrite Hs, Hs', Hn.
  - apply StrFacts.truthy_false in Hs'. subst s'.
    rewrite (lower_strip_empty_no_field s Hn). reflexivity.
  - apply StrFacts.truthy_false in Hs. subst s.
    symmetry in Hn. rewrite (lower_strip_empty_no_field s' Hn). reflexivity.
  - unfold sort_stage. now rewrite Hs, Hs'.
Qed.

(** X10: the sort value counts only through [sort.strip().lower()]: two
    requests whose sort values agree once stripped of surrounding white
    space and lower-cased get the same local variables and the same
    response; so a padded field name in any case sorts by that field. *)
Theorem sort_value_is_normalized
  trades assetClass end_ maxPrice minPrice start tradeType page perPage
  (s s' : string) :
  Str.lower (Str.strip s) = Str.lower (Str.strip s') ->
  get_trades_body trades assetClass end_ maxPrice minPrice start tradeType
    page perPage (Some s)
  = get_trades_body trades assetClass end_ maxPrice minPrice start tradeType
      page perPage (Some s')
  /\ get_trades trades assetClass end_ maxPrice minPrice start tradeType
       page perPage (Some s)
     = get_trades trades assetClass end_ maxPrice minPrice start tradeType
         page perPage (Some s').
Proof.
  intros Hn.
  assert (Hbody :
    get_trades_body trades assetClass end_ maxPrice minPrice start tradeType
      page perPage (Some s)
    = get_trades_body trades assetClass end_ maxPrice minPrice start
        tradeType page perPage (Some s')).
  { unfold get_trades_body.
    destruct (filter_stage trades assetClass end_ maxPrice minPrice start
                tradeType) as [fl | e]; [| reflexivity].
    cbn [bind]. now rewrite (sort_stage_normalized s s' fl Hn). }
  split; [exact Hbody |]. unfold get_trades. now rewrite Hbody.
Qed.

Lemma sort_value_is_normalized_witness :
  get_trades_body store3 None None None None None None 1 10
    (Some "  TradeID ")
  = get_trades_body store3 None None None None None None 1 10
      (Some "tradeId")
  /\ get_trades store3 None None None None None None 1 10 (Some "  TradeID ")
     = get_trades store3 None None None None None None 1 10 (Some "tradeId").
Proof.
  apply (sort_value_is_normalized store3 None None None None None None 1 10
           "  TradeID " "tradeId").
  reflexivity.
Defined.

Section SortedCompose.
Context {A K : Type} `{PyLtTotal K}.
Variable key : A -> K.

Lemma insert_least (x : A) (l : list A) :
  Forall (key_le key x) l -> insert key x l = x :: l.
Proof.
  intros Hx. destruct l as [| y l]; [reflexivity |].
  simpl. apply Forall_inv in Hx. unfold key_le in Hx. now rewrite Hx.
Qed.

Lemma sorted_of_sorted (l : list A) :
  StronglySorted (key_le key) l -> sorted key l = l.
Proof.
  induction 1 as [| x l Hl IH Hx]; simpl; [reflexivity |].
  rewrite IH. now apply insert_least.
Qed.

Lemma Forall_filter {P : A -> Prop} (p : A -> bool) (l : list A) :
  Forall P l -> Forall P (filter p l).
Proof.
  induction 1 as [| x l Hx Hl IH]; simpl; [constructor |].
  destruct (p x); [constructor |]; assumption.
Qed.

Lemma insert_filter (p : A -> bool) (x : A) (l : list A) :
  StronglySorted (key_le key) l ->
  filter p (insert key x l)
  = if p x then insert key x (filter p l) else filter p l.
Proof.
  induction 1 as [| y l Hl IH Hy]; simpl.
  - now destruct (p x).
  - destruct (py_lt (key y) (key x)) eqn:Hyx; simpl.
    + rewrite IH. destruct (p y), (p x); simpl; rewrite ?Hyx; reflexivity.
    + destruct (p x) eqn:Hpx; [| reflexivity].
      destruct (p y); simpl; [now rewrite Hyx |].
      symmetry. apply insert_least. apply Forall_filter.
      eapply Forall_impl; [| exact Hy].
      intros z Hz. eapply key_le_trans; [exact Hyx | exact Hz].
Qed.

(** Filtering the sorted list is sorting the filtered list. *)
Lemma sorted_filter (p : A -> bool) (l : list A) :
  filter p (sorted key l) = sorted key (filter p l).
Proof.
  induction l as [| x l IH]; simpl; [reflexivity |].
  rewrite insert_filter by apply sorted_ascending.
  rewrite IH. now destruct (p x).
Qed.

Lemma sorted_idempotent (l : list A) :
  sorted key (sorted key l) = sorted key l.
Proof. apply sorted_of_sorted, sorted_ascending. Qed.

End SortedCompose.

Lemma sort_stage_filter (sort : option string) (p : Trade -> bool)
  (l : list Trade) :
  filter p (sort_stage sort l) = sort_stage sort (filter p l).
Proof.
  unfold sort_stage.
  destruct sort as [s |]; [| reflexivity].
  destruct (Str.truthy s); [| reflexivity].
  cbv zeta.
  repeat match goal with
         | |- context [if ?b then _ else _] => destruct b
         end;
    solve [reflexivity | apply sorted_filter].
Qed.

Lemma sort_stage_idempotent (sort : option string) (l : list Trade) :
  sort_stage sort (sort_stage sort l) = sort_stage sort l.
Proof.
  unfold sort_stage.
  destruct sort as [s |]; [| reflexivity].
  destruct (Str.truthy s); [| reflexivity].
  cbv zeta.
  repeat match goal with
         | |- context [if ?b then _ else _] => destruct b
         end;
    solve [reflexivity | apply sorted_idempotent].
Qed.

(** X11: with naive or absent date bounds, sorting and filtering commute and
    sorting twice is sorting once: the filtered set of the store sorted
    beforehand by the sort value is the sorted filtered set of the
    store, and the request gets the same response on both stores. *)
Theorem presorted_store_same_response
  trades assetClass end_ maxPrice minPrice start tradeType page perPage sort :
  Spec.naive_or_absent start -> Spec.naive_or_absent end_ ->
  exists fl,
    filter_stage trades assetClass end_ maxPrice minPrice start tradeType
    = Ok fl
    /\ filter_stage (sort_stage sort trades) assetClass end_ maxPrice
         minPrice start tradeType
       = Ok (sort_stage sort fl)
    /\ get_trades (sort_stage sort trades) assetClass end_ maxPrice minPrice
         start tradeType page perPage sort
       = get_trades trades assetClass end_ maxPrice minPrice start tradeType
           page perPage sort.
Proof.
  intros Hs He. eexists. split; [now apply filter_stage_naive |].
  assert (Hsorted :
    filter_stage (sort_stage sort trades) assetClass end_ maxPrice minPrice
      start tradeType
    = Ok (sort_stage sort
            (filter (Spec.satisfies_active assetClass end_ maxPrice minPrice
                       start tradeType) trades))).
  { rewrite filter_stage_naive by assumption. now rewrite sort_stage_filter. }
  split; [exact Hsorted |].
  rewrite (get_trades_eq _ _ _ _ _ _ _ page perPage sort _ Hsorted).
  rewrite (get_trades_eq _ _ _ _ _ _ _ page perPage sort _
             (filter_stage_naive trades assetClass end_ maxPrice minPrice
                start tradeType Hs He)).
  now rewrite sort_stage_idempotent.
Qed.

Lemma presorted_store_same_response_witness :
  exists fl,
    filter_stage store3 None None None (Some 20%float) None None = Ok fl
    /\ filter_stage (sort_stage (Some "tradeId") store3) None None None
         (Some 20%float) None None
       = Ok (sort_stage (Some "tradeId") fl)
    /\ get_trades (sort_stage (Some "tradeId") store3) None None None
         (Some 20%float) None None 1 10 (Some "tradeId")
       = get_trades store3 None None None (Some 20%float) None None 1 10
           (Some "tradeId").
Proof.
  apply (presorted_store_same_response store3 None None None (Some 20%float)
           None None 1 10 (Some "tradeId")); exact I.
Defined.

(* ================================================================== *)
(** * More on the pages *)

(** X12: for [page >= 1] and [perPage >= 1], the page has the records that
    are left from its offset on, and [perPage] of them at most: every
    page before the last one is full, and a page is empty exactly when
    its offset is at or beyond the size of the filtered set. *)
Theorem page_length
  trades assetClass end_ maxPrice minPrice start tradeType page perPage sort
  (fl : list Trade) :
  1 <= page -> 1 <= perPage ->
  filter_stage trades assetClass end_ maxPrice minPrice start tradeType
  = Ok fl ->
  exists pg,
    get_trades trades assetClass end_ maxPrice minPrice start tradeType
      page perPage sort = Ok pg
    /\ Z.of_nat (List.length pg)
       = Z.max 0
           (Z.min perPage (Z.of_nat (List.length fl) - (page - 1) * perPage))
    /\ (pg = [] <-> Z.of_nat (List.length fl) <= (page - 1) * perPage).
Proof.
  intros Hp Hn Hfl.
  exists (Spec.page_of (sort_stage sort fl) page perPage).
  split; [now apply get_trades_page |].
  assert (Hlen :
    Z.of_nat (List.length (Spec.page_of (sort_stage sort fl) page perPage))
    = Z.max 0
        (Z.min perPage (Z.of_nat (List.length fl) - (page - 1) * perPage))).
  { unfold Spec.page_of.
    rewrite length_firstn, length_skipn, sort_stage_length. nia. }
  split; [exact Hlen |].
  rewrite <- length_zero_iff_nil. lia.
Qed.

Lemma page_length_witness :
  exists pg,
    get_trades store3 None None None None None None 2 2 None = Ok pg
    /\ Z.of_nat (List.length pg)
       = Z.max 0 (Z.min 2 (Z.of_nat (List.length store3) - (2 - 1) * 2))
    /\ (pg = [] <-> Z.of_nat (List.length store3) <= (2 - 1) * 2).
Proof.
  apply (page_length store3 None None None None None None 2 2 None store3);
    [lia | lia | reflexivity].
Defined.

(* ================================================================== *)
(** * The declared constraints at work *)

Lemma Query_int_cases (default : Z) (ge le v : option Z) (n : Z) :
  Query_int default ge le v = Some n ->
  (v = None /\ n = default)
  \/ (v = Some n
      /\ (forall g, ge = Some g -> g <= n)
      /\ (forall m, le = Some m -> n <= m)).
Proof.
  unfold Query_int. destruct v as [x |].
  - destruct ge as [g |], le as [m |]; cbv zeta;
      repeat match goal with
             | |- context [?a <=? ?b] => destruct (Z.leb_spec a b)
             end; simpl; intros Hq; inversion Hq; subst; right;
      (split; [reflexivity |]); split; intros y Hy; inversion Hy; subst;
      lia.
  - intros Hq. inversion Hq. now left.
Qed.

Lemma get_trades_ok_page
  trades assetClass end_ maxPrice minPrice start tradeType page perPage sort
  pg :
  1 <= page -> 1 <= perPage ->
  get_trades trades assetClass end_ maxPrice minPrice start tradeType
    page perPage sort = Ok pg ->
  (List.length pg <= Z.to_nat perPage)%nat.
Proof.
  intros Hp Hn Hpg.
  destruct (filter_stage trades assetClass end_ maxPrice minPrice start
              tradeType) as [fl | e] eqn:Hfl.
  - rewrite (get_trades_page _ _ _ _ _ _ _ page perPage sort _ Hfl Hp Hn)
      in Hpg.
    inversion Hpg. apply page_of_length.
  - rewrite (get_trades_raise _ _ _ _ _ _ _ page perPage sort _ Hfl) in Hpg.
    discriminate.
Qed.

(** X13: whatever the store and the parameters, a page that the route serves
    has at most 100 records, at most [perPage] of them when [perPage]
    is given and at most 10 when it is not. *)
Theorem served_page_is_bounded
  trades assetClass end_ maxPrice minPrice start tradeType
  (page perPage : option Z) sort (pg : list Trade) :
  get_trades_route trades assetClass end_ maxPrice minPrice start tradeType
    page perPage sort = Called (Ok pg) ->
  Z.of_nat (List.length pg) <= 100
  /\ (forall n, perPage = Some n -> Z.of_nat (List.length pg) <= n)
  /\ (perPage = None -> Z.of_nat (List.length pg) <= 10).
Proof.
  unfold get_trades_route.
  destruct (Query_int 1 (Some 1) None page) as [p |] eqn:Hp;
    [| discriminate].
  destruct (Query_int 10 (Some 1) (Some 100) perPage) as [n |] eqn:Hn;
    [| discriminate].
  intros Hc. inversion Hc as [Hpg]. clear Hc.
  assert (Hp1 : 1 <= p).
  { apply Query_int_cases in Hp.
    destruct Hp as [[_ ->] | (_ & Hge & _)]; [lia | now apply Hge]. }
  apply Query_int_cases in Hn.
  assert (Hn1 : 1 <= n <= 100).
  { destruct Hn as [[_ ->] | (_ & Hge & Hle)]; [lia |].
    split; [now apply Hge | now apply Hle]. }
  pose proof (get_trades_ok_page _ _ _ _ _ _ _ _ _ _ _ Hp1 (proj1 Hn1) Hpg)
    as Hlen.
  split; [lia |]. split.
  - intros m ->. destruct Hn as [[Hv _] | (Hv & _)]; inversion Hv. lia.
  - intros ->. destruct Hn as [[_ ->] | (Hv & _)]; [lia | discriminate].
Qed.

Lemma served_page_is_bounded_witness :
  Z.of_nat (List.length [trade_B; trade_A]) <= 100
  /\ (forall n, Some 2 = Some n ->
                Z.of_nat (List.length [trade_B; trade_A]) <= n)
  /\ (Some 2 = None -> Z.of_nat (List.length [trade_B; trade_A]) <= 10).
Proof.
  apply (served_page_is_bounded store3 None None None None None None
           (Some 1) (Some 2) None [trade_B; trade_A]).
  reflexivity.
Defined.

(** The route answers 422 exactly when a given [page] is below 1 or a
    given [perPage] is below 1 or above 100; the function is then not
    called, so that no filter runs and no TypeError comes of an aware
    bound. *)
Theorem route_rejects_out_of_range
  trades assetClass end_ maxPrice minPrice start tradeType
  (page perPage : option Z) sort :
  get_trades_route trades assetClass end_ maxPrice minPrice start tradeType
    page perPage sort = Unprocessable
  <-> (exists p, page = Some p /\ p < 1)
      \/ (exists n, perPage = Some n /\ (n < 1 \/ 100 < n)).
Proof.
  unfold get_trades_route, Query_int.
  destruct page as [p |], perPage as [n |]; cbv zeta;
    repeat match goal with
           | |- context [?a <=? ?b] => destruct (Z.leb_spec a b)
           end; simpl;
    (split;
     [ intros Hu; try discriminate;
       first [ left; eexists; split; [reflexivity | lia]
             | right; eexists; split; [reflexivity | lia] ]
     | intros [(x & Hx & Hlt) | (x & Hx & Hlt)];
       try discriminate; try reflexivity;
       inversion Hx; subst; lia ]).
Qed.

(** X14: a request with neither [page] nor [perPage] is served the first ten
    records of the filtered and possibly sorted set. *)
Theorem default_page_is_first_ten
  trades assetClass end_ maxPrice minPrice start tradeType sort
  (fl : list Trade) :
  filter_stage trades assetClass end_ maxPrice minPrice start tradeType
  = Ok fl ->
  get_trades_route trades assetClass end_ maxPrice minPrice start tradeType
    None None sort
  = Called (Ok (firstn 10 (sort_stage sort fl))).
Proof.
  intros Hfl. unfold get_trades_route. simpl.
  rewrite (get_trades_page _ _ _ _ _ _ _ 1 10 sort _ Hfl) by lia.
  reflexivity.
Qed.

Lemma default_page_is_first_ten_witness :
  get_trades_route store3 None None None None None None None None
    (Some "tradeId")
  = Called (Ok (firstn 10 (sort_stage (Some "tradeId") store3))).
Proof.
  apply (default_page_is_first_ten store3 None None None None None None
           (Some "tradeId") store3).
  reflexivity.
Defined.

(* ================================================================== *)
(** * More on the shared store *)

Lemma grows_ret {A} (a : A) : grows (Refs.ret a).
Proof. intros h. apply RefsFacts.extends_refl. Qed.

Lemma grows_new (f : list Trade -> result (list Trade)) (r : Refs.ref) :
  grows (Refs.bindc (Refs.read r) (fun l => Refs.new_list (f l))).
Proof.
  intros h. unfold Refs.bindc, Refs.read, Refs.new_list.
  destruct (f (Refs.deref h r)) as [l | e]; simpl.
  - now exists [l].
  - apply RefsFacts.extends_refl.
Qed.

Lemma grows_bind {A B} (m : Refs.comp A) (k : A -> Refs.comp B) :
  grows m -> (forall a, grows (k a)) -> grows (Refs.bindc m k).
Proof.
  intros Hm Hk h. unfold Refs.bindc.
  specialize (Hm h). destruct (m h) as [[a | e] h1]; simpl in *.
  - eapply RefsFacts.extends_trans; [exact Hm | apply Hk].
  - exact Hm.
Qed.

Lemma allocates_bind {A} (m : Refs.comp A) (k : A -> Refs.comp Refs.ref) :
  grows m -> (forall a, allocates (k a)) -> allocates (Refs.bindc m k).
Proof.
  intros Hm Hk h r h'. unfold Refs.bindc.
  specialize (Hm h). destruct (m h) as [[a | e] h1]; simpl in Hm;
    [| discriminate].
  intros Hka. apply Hk in Hka. destruct Hka as [Hr Hext].
  pose proof (RefsFacts.extends_length _ _ Hm) as Hlen.
  split; [lia |]. eapply RefsFacts.extends_trans; eauto.
Qed.

Section GrowingStages.
Variable assetClass : option string.
Variable end_ : option datetime.
Variable maxPrice minPrice : option float.
Variable start : option datetime.
Variable tradeType : option string.
Variable page perPage : Z.
Variable sort : option string.

Lemma grows_filter_assetClass r :
  grows (Refs.filter_assetClass assetClass r).
Proof.
  unfold Refs.filter_assetClass.
  destruct assetClass as [a |]; [destruct (Str.truthy a) |];
    first [apply grows_new | apply grows_ret].
Qed.

Lemma grows_filter_end r : grows (Refs.filter_end end_ r).
Proof.
  unfold Refs.filter_end.
  destruct end_; first [apply grows_new | apply grows_ret].
Qed.

Lemma grows_filter_maxPrice r : grows (Refs.filter_maxPrice maxPrice r).
Proof.
  unfold Refs.filter_maxPrice.
  destruct maxPrice; first [apply grows_new | apply grows_ret].
Qed.

Lemma grows_filter_minPrice r : grows (Refs.filter_minPrice minPrice r).
Proof.
  unfold Refs.filter_minPrice.
  destruct minPrice; first [apply grows_new | apply grows_ret].
Qed.

Lemma grows_filter_start r : grows (Refs.filter_start start r).
Proof.
  unfold Refs.filter_start.
  destruct start; first [apply grows_new | apply grows_ret].
Qed.

Lemma grows_filter_tradeType r :
  grows (Refs.filter_tradeType tradeType r).
Proof.
  unfold Refs.filter_tradeType.
  destruct tradeType as [a |]; [destruct (Str.truthy a) |];
    first [apply grows_new | apply grows_ret].
Qed.

Lemma grows_sort_stage r : grows (Refs.sort_stage sort r).
Proof.
  unfold Refs.sort_stage.
  destruct sort as [s |]; [| apply grows_ret].
  destruct (Str.truthy s); [| apply grows_ret].
  cbv zeta.
  repeat match goal with
         | |- context [if ?b then _ else _] => destruct b
         end;
    solve [apply grows_ret
          | apply (grows_new (fun l => Ok (sorted _ l)))].
Qed.

Lemma allocates_paginate r : allocates (Refs.paginate page perPage r).
Proof.
  intros h r' h' Hp.
  unfold Refs.paginate, Refs.len, Refs.getslice, Refs.bindc, Refs.read,
    Refs.ret, Refs.new_list in Hp.
  inversion Hp; subst. rewrite length_app. simpl.
  split; [lia |]. now eexists.
Qed.

Lemma allocates_get_trades (trades : Refs.ref) :
  allocates (Refs.get_trades trades assetClass end_ maxPrice minPrice start
               tradeType page perPage sort).
Proof.
  unfold Refs.get_trades.
  apply allocates_bind; [apply grows_filter_assetClass | intros r1].
  apply allocates_bind; [apply grows_filter_end | intros r2].
  apply allocates_bind; [apply grows_filter_maxPrice | intros r3].
  apply allocates_bind; [apply grows_filter_minPrice | intros r4].
  apply allocates_bind; [apply grows_filter_start | intros r5].
  apply allocates_bind; [apply grows_filter_tradeType | intros r6].
  apply allocates_bind; [apply grows_sort_stage | intros r7].
  apply allocates_paginate.
Qed.
End GrowingStages.

(** X15: the page that [get_trades] returns is always a list object of its
    own making: not the store, and no list that was there before the
    request, also when no filter and no sort applies and the local
    variable is still the store itself.  The store and every earlier
    object are as they were. *)
Theorem get_trades_returns_new_list
  (trades : Refs.ref) assetClass end_ maxPrice minPrice start tradeType
  page perPage sort (h h' : Refs.heap) (r : Refs.ref) :
  (trades < List.length h)%nat ->
  Refs.get_trades trades assetClass end_ maxPrice minPrice start tradeType
    page perPage sort h = (Ok r, h') ->
  r <> trades
  /\ (List.length h <= r < List.length h')%nat
  /\ (forall r0, (r0 < List.length h)%nat ->
                 Refs.deref h' r0 = Refs.deref h r0).
Proof.
  intros Ht Hg. apply allocates_get_trades in Hg.
  destruct Hg as [Hr Hext].
  split; [lia |]. split; [exact Hr |].
  intros r0 Hr0. now apply RefsFacts.extends_deref.
Qed.

Lemma get_trades_returns_new_list_witness :
  1%nat <> 0%nat
  /\ (List.length [store3] <= 1 < List.length [store3; [trade_B; trade_A]])%nat
  /\ (forall r0, (r0 < List.length [store3])%nat ->
                 Refs.deref [store3; [trade_B; trade_A]] r0
                 = Refs.deref [store3] r0).
Proof.
  apply (get_trades_returns_new_list 0%nat None None None None None None
           1 2 None [store3] [store3; [trade_B; trade_A]] 1%nat).
  - simpl. lia.
  - reflexivity.
Defined.

(** X16: GET /trades keeps no state between requests: after any
    sequence of [get_trades] requests, failed ones among them, the
    store and every list that was on the heap are as they were, and
    every answer is the one that its request gets from the store
    alone. *)
Theorem queries_keep_no_state
  (trades : Refs.ref) (rqs : list Refs.request) (h : Refs.heap) :
  (trades < List.length h)%nat ->
  let (answers, h') := Refs.serve trades rqs h in
  answers = map (answer (Refs.deref h trades)) rqs
  /\ Refs.deref h' trades = Refs.deref h trades
  /\ (forall r, (r < List.length h)%nat -> Refs.deref h' r = Refs.deref h r).
Proof.
  intros Ht.
  destruct (RefsFacts.serve_refines trades rqs h Ht) as [Hext Hans].
  destruct (Refs.serve trades rqs h) as [answers h']. simpl in Hext, Hans.
  split; [exact Hans |]. split.
  - now apply RefsFacts.extends_deref.
  - intros r Hr. now apply RefsFacts.extends_deref.
Qed.

Lemma queries_keep_no_state_witness :
  let (answers, h') :=
    Refs.serve 0%nat
      [Refs.GetTrades None (Some (Aware 0 0)) None None None None 1 10 None;
       Refs.GetTrades (Some "fx") None None None None None 1 10 None;
       Refs.GetTrades None None None None None None 1 2 (Some "tradeId")]
      [store3] in
  answers
  = map (answer (Refs.deref [store3] 0%nat))
      [Refs.GetTrades None (Some (Aware 0 0)) None None None None 1 10 None;
       Refs.GetTrades (Some "fx") None None None None None 1 10 None;
       Refs.GetTrades None None None None None None 1 2 (Some "tradeId")]
  /\ Refs.deref h' 0%nat = Refs.deref [store3] 0%nat
  /\ (forall r, (r < List.length [store3])%nat ->
                Refs.deref h' r = Refs.deref [store3] r).
Proof.
  apply (queries_keep_no_state 0%nat
           [Refs.GetTrades None (Some (Aware 0 0)) None None None None 1 10
              None;
            Refs.GetTrades (Some "fx") None None None None None 1 10 None;
            Refs.GetTrades None None None None None None 1 2
              (Some "tradeId")]
           [store3]).
  simpl. lia.
Defined.

(* ================================================================== *)
(** * The generated store *)

#[export] Instance counter_library_laws : LibraryLaws nat.
Proof.
  split.
  - intros l w Hl. simpl. apply nth_In.
    apply Nat.mod_upper_bound. now destruct l.
  - intros lo hi w Hle. simpl. lia.
Qed.

Section StartupFacts.
Context {W : Type} `{Library W}.

Lemma generate_loop_acc (n : nat) (acc : list Trade) (w : W) :
  generate_loop n acc w
  = let (l, w') := generate_loop n [] w in ((acc ++ l)%list, w').
Proof.
  revert acc w. induction n as [| n IH]; intros acc w; simpl.
  - unfold retg. now rewrite app_nil_r.
  - unfold bindg. destruct (new_Trade w) as [t w1].
    rewrite (IH (acc ++ [t])%list w1), (IH [t] w1).
    destruct (generate_loop n [] w1) as [l w'].
    now rewrite <- app_assoc.
Qed.

Lemma generate_loop_length (n : nat) (w : W) :
  List.length (fst (generate_loop n [] w)) = n.
Proof.
  revert w. induction n as [| n IH]; intros w; simpl; [reflexivity |].
  unfold bindg. destruct (new_Trade w) as [t w1].
  rewrite generate_loop_acc. specialize (IH w1).
  destruct (generate_loop n [] w1) as [l w']. simpl in *.
  now rewrite IH.
Qed.

Lemma generate_loop_add (a b : nat) (w : W) :
  generate_loop (a + b) [] w
  = let (l1, w1) := generate_loop a [] w in
    let (l2, w2) := generate_loop b [] w1 in
    ((l1 ++ l2)%list, w2).
Proof.
  revert w. induction a as [| a IH]; intros w; simpl.
  - unfold retg. now destruct (generate_loop b [] w).
  - unfold bindg. destruct (new_Trade w) as [t w1].
    rewrite (generate_loop_acc (a + b)), (generate_loop_acc a), (IH w1).
    destruct (generate_loop a [] w1) as [l1 w2].
    destruct (generate_loop b [] w2) as [l2 w3].
    reflexivity.
Qed.

(** X17: [generate_random_trades(n)] returns exactly [n] records, and none
    for an [n] that is not positive. *)
Theorem generate_random_trades_length (num_trades : Z) (w : W) :
  Z.of_nat (List.length (fst (generate_random_trades num_trades w)))
  = Z.max 0 num_trades.
Proof.
  unfold generate_random_trades. rewrite generate_loop_length. lia.
Qed.

(** X18: generating [n + m] records is generating [n] and then [m] more from
    where the world was left: the first records do not depend on how
    many are generated after them. *)
Theorem generate_random_trades_add (n m : Z) (w : W) :
  0 <= n -> 0 <= m ->
  generate_random_trades (n + m) w
  = let (l1, w1) := generate_random_trades n w in
    let (l2, w2) := generate_random_trades m w1 in
    ((l1 ++ l2)%list, w2).
Proof.
  intros Hn Hm. unfold generate_random_trades. cbv zeta.
  rewrite Z2Nat.inj_add by assumption. apply generate_loop_add.
Qed.

Lemma generate_loop_Forall (P : Trade -> Prop) :
  (forall w, P (fst (new_Trade w))) ->
  forall n w, Forall P (fst (generate_loop n [] w)).
Proof.
  intros HP n. induction n as [| n IH]; intros w; simpl; [constructor |].
  unfold bindg. pose proof (HP w) as Ht.
  destruct (new_Trade w) as [t w1]. simpl in Ht.
  rewrite generate_loop_acc. specialize (IH w1).
  destruct (generate_loop n [] w1) as [l w']. simpl in *.
  now constructor.
Qed.

End StartupFacts.

Lemma generate_random_trades_add_witness :
  generate_random_trades (1 + 2) 0%nat
  = let (l1, w1) := generate_random_trades 1 0%nat in
    let (l2, w2) := generate_random_trades 2 w1 in
    ((l1 ++ l2)%list, w2).
Proof.
  apply (generate_random_trades_add 1 2 0%nat); lia.
Defined.

Section StartupLaws.
Context {W : Type} `{LibraryLaws W}.

Lemma new_Trade_fields (w : W) :
  let t := fst (new_Trade w) in
  In (asset_class t) ["Equity"; "Bond"; "FX"]
  /\ In (buySellIndicator (trade_details t)) ["BUY"; "SELL"]
  /\ 1 <= quantity (trade_details t) <= 1000
  /\ from_generators t.
Proof.
  unfold new_Trade, new_TradeDetails, bindg, retg, from_generators.
  pose proof (random_element_in ["Equity"; "Bond"; "FX"] w) as Hac.
  destruct (random_element ["Equity"; "Bond"; "FX"] w) as [ac w1].
  destruct (company w1) as [cp w2] eqn:Hcp.
  destruct (word w2) as [wd w3] eqn:Hwd.
  destruct (word w3) as [nm w4] eqn:Hnm.
  destruct (datetime_now w4) as [ts w5].
  pose proof (random_element_in ["BUY"; "SELL"] w5) as Hbs.
  destruct (random_element ["BUY"; "SELL"] w5) as [bs w6].
  destruct (pyfloat 0 100 w6) as [pr w7].
  pose proof (random_int_range 1 1000 w7) as Hq.
  destruct (random_int 1 1000 w7) as [q w8].
  destruct (uuid4 w8) as [id w9] eqn:Hid.
  destruct (uuid4 w9) as [tr w10] eqn:Htr.
  simpl in *. repeat split.
  - apply Hac. discriminate.
  - apply Hbs. discriminate.
  - apply Hq. lia.
  - apply Hq. lia.
  - exists w2. now rewrite Hwd.
  - exists w3. now rewrite Hnm.
  - exists w1. now rewrite Hcp.
  - exists w8. now rewrite Hid.
  - exists w9. now rewrite Htr.
Qed.

Lemma generated_Forall_fields (n : nat) (w : W) :
  Forall
    (fun t =>
       In (asset_class t) ["Equity"; "Bond"; "FX"]
       /\ In (buySellIndicator (trade_details t)) ["BUY"; "SELL"]
       /\ 1 <= quantity (trade_details t) <= 1000
       /\ from_generators t)
    (fst (generate_loop n [] w)).
Proof. apply generate_loop_Forall. exact new_Trade_fields. Qed.

(** X19: when [random_element] returns an element of its argument and
    [random_int] a number within its bounds, every generated record has
    an asset class among Equity, Bond and FX, a buy/sell indicator that
    is BUY or SELL and a quantity from 1 to 1000; its instrument id is
    the upper case of a value that [word] returned, its instrument name
    a value that [word] returned, its counterparty a value that
    [company] returned, and its trade id and its trader values that
    [uuid4] returned. *)
Theorem generated_records_fields (num_trades : Z) (w : W) (t : Trade) :
  In t (fst (generate_random_trades num_trades w)) ->
  In (asset_class t) ["Equity"; "Bond"; "FX"]
  /\ In (buySellIndicator (trade_details t)) ["BUY"; "SELL"]
  /\ 1 <= quantity (trade_details t) <= 1000
  /\ (exists w0, instrument_id t = str_upper (fst (word w0)))
  /\ (exists w0, instrument_name t = fst (word w0))
  /\ (exists w0, counterparty t = fst (company w0))
  /\ (exists w0, trade_id t = fst (uuid4 w0))
  /\ (exists w0, trader t = fst (uuid4 w0)).
Proof.
  intros Ht.
  pose proof (generated_Forall_fields (Z.to_nat num_trades) w) as Hall.
  rewrite Forall_forall in Hall.
  destruct (Hall t Ht) as (Hac & Hbs & Hq & Hgen).
  unfold from_generators in Hgen. tauto.
Qed.

End StartupLaws.

Lemma generated_records_fields_witness :
  let t := hd trade_B (fst (generate_random_trades 2 0%nat)) in
  In (asset_class t) ["Equity"; "Bond"; "FX"]
  /\ In (buySellIndicator (trade_details t)) ["BUY"; "SELL"]
  /\ 1 <= quantity (trade_details t) <= 1000
  /\ (exists w0, instrument_id t = str_upper (fst (word w0)))
  /\ (exists w0, instrument_name t = fst (word w0))
  /\ (exists w0, counterparty t = fst (company w0))
  /\ (exists w0, trade_id t = fst (uuid4 w0))
  /\ (exists w0, trader t = fst (uuid4 w0)).
Proof.
  apply (generated_records_fields (W := nat) 2 0%nat
           (hd trade_B (fst (generate_random_trades 2 0%nat)))).
  simpl. now left.
Defined.

Lemma filter_none {A} (p : A -> bool) (l : list A) :
  (forall x, In x l -> p x = false) -> filter p l = [].
Proof.
  induction l as [| x l IH]; intros Hp; simpl; [reflexivity |].
  rewrite (Hp x (or_introl eq_refl)). apply IH.
  intros y Hy. apply Hp. now right.
Qed.

Section StartupRequests.
Context {W : Type} `{Library W}.

(** X20: at startup the store has 100 records, and the request with no
    parameter at all is served the first ten of them: the ten records
    that [generate_random_trades(10)] would have made. *)
Theorem default_request_at_startup (w : W) :
  Z.of_nat (List.length (fst (startup w))) = 100
  /\ get_trades_route (fst (startup w)) None None None None None None
       None None None
     = Called (Ok (fst (generate_random_trades 10 w)))
  /\ List.length (fst (generate_random_trades 10 w)) = 10%nat.
Proof.
  assert (Hten : List.length (fst (generate_random_trades 10 w)) = 10%nat).
  { unfold generate_random_trades. now rewrite generate_loop_length. }
  split; [| split; [| exact Hten]].
  - unfold startup, generate_random_trades.
    now rewrite generate_loop_length.
  - unfold startup, generate_random_trades in *. cbv zeta in *.
    change (Z.to_nat 100) with (Z.to_nat 10 + 90)%nat.
    rewrite generate_loop_add.
    destruct (generate_loop (Z.to_nat 10) [] w) as [l1 w1].
    destruct (generate_loop 90 [] w1) as [l2 w2].
    simpl in Hten. cbn [fst].
    unfold get_trades_route. cbn [Query_int].
    rewrite (get_trades_page (l1 ++ l2) None None None None None None 1 10
               None (l1 ++ l2)%list eq_refl) by lia.
    cbn [sort_stage]. unfold Spec.page_of.
    change (Z.to_nat ((1 - 1) * 10)) with 0%nat.
    change (Z.to_nat 10) with 10%nat. rewrite skipn_O.
    rewrite firstn_app, Hten, Nat.sub_diag, firstn_O, app_nil_r.
    rewrite <- Hten. now rewrite firstn_all.
Qed.

End StartupRequests.

Section StartupFilters.
Context {W : Type} `{LibraryLaws W}.

(** X21: on a generated store, an [assetClass] that is not empty and is none
    of equity, bond and fx in lower case leaves no record: the request
    returns the empty page, whatever its other parameters, aware date
    bounds among them. *)
Theorem unknown_asset_class_is_empty
  (num_trades : Z) (w : W) (a : string)
  end_ maxPrice minPrice start tradeType page perPage sort :
  Str.truthy a = true ->
  ~ In (Str.lower a) ["equity"; "bond"; "fx"] ->
  get_trades (fst (generate_random_trades num_trades w)) (Some a) end_
    maxPrice minPrice start tradeType page perPage sort = Ok [].
Proof.
  intros Ha Hnot.
  set (store := fst (generate_random_trades num_trades w)).
  assert (Hnone : filter (Spec.asset_ok (Some a)) store = []).
  { apply filter_none. intros t Ht.
    pose proof (generated_Forall_fields (Z.to_nat num_trades) w) as Hall.
    rewrite Forall_forall in Hall. destruct (Hall t Ht) as [Hac _].
    unfold Spec.asset_ok, Spec.active, Spec.eq_nocase. rewrite Ha.
    apply String.eqb_neq. intros Heq. apply Hnot. rewrite <- Heq.
    simpl in Hac.
    destruct Hac as [<- | [<- | [<- | []]]]; simpl; auto. }
  assert (Hfl :
    filter_stage store (Some a) end_ maxPrice minPrice start tradeType
    = Ok []).
  { unfold filter_stage. rewrite filter_assetClass_eq, Hnone, bind_ret.
    apply (filter_stage_nil None end_ maxPrice minPrice start tradeType). }
  rewrite (get_trades_eq _ _ _ _ _ _ _ page perPage sort _ Hfl).
  now rewrite sort_stage_nil, slice_nil.
Qed.

End StartupFilters.

Lemma unknown_asset_class_is_empty_witness :
  get_trades (fst (generate_random_trades 3 0%nat)) (Some "crypto")
    (Some (Aware 0 0)) None None None None 1 10 None = Ok [].
Proof.
  apply (unknown_asset_class_is_empty (W := nat) 3 0%nat "crypto"
           (Some (Aware 0 0)) None None None None 1 10 None).
  - reflexivity.
  - simpl. intuition discriminate.
Defined.

(* ================================================================== *)
(** * The two endpoints together *)

Lemma page_record_in_store
  trades assetClass end_ maxPrice minPrice start tradeType page perPage sort
  (pg : list Trade) (t : Trade) :
  get_trades trades assetClass end_ maxPrice minPrice start tradeType
    page perPage sort = Ok pg ->
  In t pg -> In t trades.
Proof.
  intros Hpg Ht.
  destruct (filter_stage trades assetClass end_ maxPrice minPrice start
              tradeType) as [fl | e] eqn:Hfl.
  - rewrite (get_trades_eq _ _ _ _ _ _ _ page perPage sort _ Hfl) in Hpg.
    inversion Hpg; subst pg.
    apply In_slice in Ht.
    apply (Permutation_in _ (Permutation_sym (sort_stage_perm sort fl)))
      in Ht.
    rewrite (filter_stage_ok _ _ _ _ _ _ _ _ Hfl) in Ht.
    now apply filter_In in Ht.
  - rewrite (get_trades_raise _ _ _ _ _ _ _ page perPage sort _ Hfl) in Hpg.
    discriminate.
Qed.

(** X22: a record of a page that [get_trades] returns can be looked up by its
    id: the lookup never answers with the error dict, returns a record
    of that id, and returns the record itself when no two records of
    the store share an id. *)
Theorem page_record_can_be_looked_up
  trades assetClass end_ maxPrice minPrice start tradeType page perPage sort
  (pg : list Trade) (t : Trade) :
  get_trades trades assetClass end_ maxPrice minPrice start tradeType
    page perPage sort = Ok pg ->
  In t pg ->
  (exists t', get_trade trades (trade_id t) = VTrade t'
              /\ trade_id t' = trade_id t /\ In t' trades)
  /\ (NoDup (map trade_id trades) ->
      get_trade trades (trade_id t) = VTrade t).
Proof.
  intros Hpg Ht.
  pose proof (page_record_in_store _ _ _ _ _ _ _ _ _ _ _ _ Hpg Ht) as Hin.
  split.
  - destruct (get_trade_cases trades (trade_id t))
      as [[_ Habs] | (before & t' & after & Heq & _ & Hid & Hg)].
    + exfalso. now apply (Habs t Hin).
    + exists t'. repeat split; auto.
      rewrite Heq. apply in_or_app. right. now left.
  - intros Hnd.
    destruct (get_trade_cases trades (trade_id t))
      as [[_ Habs] | (before & t' & after & Heq & _ & Hid & Hg)].
    + exfalso. now apply (Habs t Hin).
    + rewrite Hg. f_equal.
      apply (NoDup_map_eq trade_id trades t' t Hnd); auto.
      rewrite Heq. apply in_or_app. right. now left.
Qed.

Lemma page_record_can_be_looked_up_witness :
  (exists t', get_trade store3 (trade_id trade_C) = VTrade t'
              /\ trade_id t' = trade_id trade_C /\ In t' store3)
  /\ (NoDup (map trade_id store3) ->
      get_trade store3 (trade_id trade_C) = VTrade trade_C).
Proof.
  apply (page_record_can_be_looked_up store3 None None None None None None
           2 2 (Some "tradeId") [trade_C] trade_C).
  - reflexivity.
  - simpl. now left.
Defined.

(* ================================================================== *)
(** * The date filter on naive bounds *)

Lemma naive_bound_ok (o : option Z) :
  Spec.naive_or_absent (option_map Naive o).
Proof. now destruct o. Qed.

(** X23: with bounds that are naive datetimes, each of them given or
    not, the date filter never raises and keeps, in store order, the
    records with [start <= tradeDateTime] when [start] is given and
    [tradeDateTime <= end] when [end] is given; both bounds are
    inclusive, so a record whose timestamp is equal to a bound is
    kept. *)
Theorem naive_date_filter_inclusive
  (trades : list Trade) (start end_ : option Z) :
  let within (t : Trade) :=
    Spec.supplied start (fun s => s <=? trade_date_time t)
    && Spec.supplied end_ (fun e => trade_date_time t <=? e) in
  filter_stage trades None (option_map Naive end_) None None
    (option_map Naive start) None
  = Ok (filter within trades)
  /\ (forall t,
         In t (filter within trades) <->
         In t trades
         /\ (forall s, start = Some s -> s <= trade_date_time t)
         /\ (forall e, end_ = Some e -> trade_date_time t <= e))
  /\ (forall t,
         In t trades ->
         (start = None \/ start = Some (trade_date_time t)) ->
         (end_ = None \/ end_ = Some (trade_date_time t)) ->
         In t (filter within trades)).
Proof.
  intros within.
  assert (Hiff : forall t,
             within t = true <->
             (forall s, start = Some s -> s <= trade_date_time t)
             /\ (forall e, end_ = Some e -> trade_date_time t <= e)).
  { intros t. unfold within, Spec.supplied.
    rewrite andb_true_iff. split.
    - intros [Hs He]. split.
      + intros s ->. now apply Z.leb_le.
      + intros e ->. now apply Z.leb_le.
    - intros [Hs He]. split.
      + destruct start as [s |]; [| reflexivity].
        apply Z.leb_le. now apply Hs.
      + destruct end_ as [e |]; [| reflexivity].
        apply Z.leb_le. now apply He. }
  split; [| split].
  - rewrite (filter_stage_naive trades None (option_map Naive end_) None None
               (option_map Naive start) None
               (naive_bound_ok start) (naive_bound_ok end_)).
    f_equal. apply filter_ext. intros t.
    unfold Spec.satisfies_active, Spec.asset_ok, Spec.type_ok, Spec.active,
      Spec.date_ok, Spec.price_ok, Spec.end_ok, Spec.start_ok, Spec.max_ok,
      Spec.min_ok, Spec.supplied, Spec.dt_leb, within.
    destruct start as [s |], end_ as [e |]; simpl;
      rewrite ?andb_true_r; try reflexivity; apply andb_comm.
  - intros t. rewrite filter_In, Hiff. tauto.
  - intros t Ht Hs He. apply filter_In. split; [exact Ht |].
    apply Hiff. split.
    + intros s Heq. destruct Hs as [Hs | Hs]; rewrite Hs in Heq;
        inversion Heq. lia.
    + intros e Heq. destruct He as [He | He]; rewrite He in Heq;
        inversion Heq. lia.
Qed.

(* ================================================================== *)
(** * The lookup at the route *)

Section LookupRouteFacts.
Context {W : Type} `{Library W}.


End LookupRouteFacts.

(** On the counter world two lookups of the same absent id, one after
    the other, are served two different records. *)
Example absent_lookups_differ :
  let (first, w1) := get_trade_route store3 "Z" 0%nat in
  let (second, _) := get_trade_route store3 "Z" w1 in
  first <> second.
Proof. simpl. intros Heq. inversion Heq. Qed.
